(** * Thermocline feature detection (seabird/thermocline.py)

    A shallow embedding of the segmentation detector
    ([thermocline_segmentation]), of the two wrapper detectors
    ([thermocline_HMM], [thermocline_threshold]) and of the ensemble
    ([thermocline.detect]).

    Modelling conventions.
    - Python floats are exact rationals [Q]; comparisons are the rational
      ones.  Values are stored and compared as the code computes them, so
      results are related by Leibniz equality.
    - Python exceptions are values of [exn]; a computation that may raise
      returns a [result].  Methods that update [self] (or the [features]
      dictionary) step by step are computations of the state and exception
      monad [M]: the updates made before an exception stay in the state.
    - Division by a zero float raises [ZeroDivisionError]; no property
      below relies on it, each one assumes or derives that the gradients
      were computed.
    - The columns of the data frame carry the default index
      [0 .. len-1], so that [data.Depth[k]] is a lookup by label that
      raises [KeyError] outside this range.
    - [print] statements have no effect on any value and are left out.
    - The engines imported from [models] and [tools] are not part of this
      file's source; they are parameters of the section [Detectors]. *)

From Stdlib Require Import QArith Qabs Qround ZArith List Lia Sorted.
From stdpp Require Import gmap strings list fin_maps.

Local Open Scope Z_scope.

(** ** Exceptions and results *)

Inductive exn : Type :=
| IndexError
| KeyError
| ValueError
| ZeroDivisionError
| EngineError.

Inductive result (A : Type) : Type :=
| Ok (a : A)
| Raise (e : exn).

Arguments Ok {A} a.
Arguments Raise {A} e.

Definition rbind {A B} (r : result A) (k : A -> result B) : result B :=
  match r with
  | Ok a => k a
  | Raise e => Raise e
  end.

Notation "'let?' x ':=' r 'in' k" := (rbind r (fun x => k))
  (at level 10, x name, r at level 100, k at level 200).

Fixpoint mapR {A B} (f : A -> result B) (l : list A) : result (list B) :=
  match l with
  | [] => Ok []
  | x :: l' => let? y := f x in let? ys := mapR f l' in Ok (y :: ys)
  end.

(** ** The state and exception monad *)

Definition M (S A : Type) : Type := S -> S * result A.

Definition mret {S A} (a : A) : M S A := fun s => (s, Ok a).

Definition mbind {S A B} (m : M S A) (k : A -> M S B) : M S B :=
  fun s => match m s with
           | (s', Ok a) => k a s'
           | (s', Raise e) => (s', Raise e)
           end.

Definition lift {S A} (r : result A) : M S A := fun s => (s, r).

Definition gets {S A} (f : S -> A) : M S A := fun s => (s, Ok (f s)).

Definition modify {S} (f : S -> S) : M S unit := fun s => (f s, Ok tt).

Notation "'do' x '<-' m ';' k" := (mbind m (fun x => k))
  (at level 10, x name, m at level 100, k at level 200).
Notation "'run' m ';' k" := (mbind m (fun _ => k))
  (at level 10, m at level 100, k at level 200).

Fixpoint forM_ {S A} (l : list A) (body : A -> M S unit) : M S unit :=
  match l with
  | [] => mret tt
  | x :: l' => run body x; forM_ l' body
  end.

(** [try: ... except Exception: pass]: the state reached when the exception
    was raised is kept, the exception is dropped. *)
Definition try_except {S} (m : M S unit) : M S unit :=
  fun s => (fst (m s), Ok tt).

(** ** Numbers *)

Definition Qltb (x y : Q) : bool :=
  (Qnum x * QDen y <? Qnum y * QDen x)%Z.

(** [a / b] on floats. *)
Definition pydiv (a b : Q) : result Q :=
  if Qeq_bool b 0 then Raise ZeroDivisionError else Ok (a / b)%Q.

(** ** Sequences *)

(** [l[i]] on a list or an array: a negative index counts from the end. *)
Definition getitem {A} (l : list A) (i : Z) : result A :=
  let n := Z.of_nat (length l) in
  let j := if i <? 0 then i + n else i in
  if (0 <=? j) && (j <? n) then
    match l !! Z.to_nat j with
    | Some x => Ok x
    | None => Raise IndexError
    end
  else Raise IndexError.

(** [series[k]] on a column of the data frame, whose index is the default
    one, [0 .. len-1]: the lookup is by label. *)
Definition loc {A} (col : list A) (k : Z) : result A :=
  if (0 <=? k) && (k <? Z.of_nat (length col)) then
    match col !! Z.to_nat k with
    | Some x => Ok x
    | None => Raise KeyError
    end
  else Raise KeyError.

(** ** Data *)

Record DataFrame : Type := {
  Depth : list Q;
  Temperature : list Q
}.

(** [config["Preprocessing"]["Interval"]] and
    [config["Algorithm"]["segment"][...]]. *)
Record Config : Type := {
  Interval : Q;
  max_error : Q;
  stable_gradient : Q;
  stable_gradient2 : Q;
  minTRM_gradient : Q
}.

(** A segment is the list [[fitted line, point index]]: [seg[0]] is
    [fitted_line], [seg[1]] is [point_index]. *)
Record Segment : Type := {
  fitted_line : list Q;
  point_index : list Z
}.

(** The attributes of a [thermocline_segmentation] object.  [TRM_idx] is
    created by [detect]; before that the attribute does not exist. *)
Record Detector : Type := {
  LEP : option Q;
  TRM : option Q;
  UHY : option Q;
  config : Config;
  TRM_gradient : option Q;
  num_segments : option nat;
  num_belowTRM : option nat;
  model : option (list Segment);
  depthInterval : Q;
  positiveSeg : list nat;
  doubleTRM : list nat;
  gradient : list Q;
  TRM_idx : option nat
}.

(** [thermocline_segmentation.__init__] *)
Definition init (cfg : Config) : Detector := {|
  LEP := None; TRM := None; UHY := None; config := cfg;
  TRM_gradient := None; num_segments := None; num_belowTRM := None;
  model := None; depthInterval := Interval cfg;
  positiveSeg := []; doubleTRM := []; gradient := []; TRM_idx := None
|}.

(** ** [thermocline_segmentation.getGradientFromSegment] *)

Definition getGradientFromSegment (self : Detector) (seg : Segment) : result Q :=
  let? a := getitem (fitted_line seg) 0 in
  let? b := getitem (fitted_line seg) 1 in
  pydiv (a - b)%Q (depthInterval self).

(** ** Attribute assignment *)

Definition set_LEP (v : option Q) (d : Detector) : Detector :=
  {| LEP := v; TRM := TRM d; UHY := UHY d; config := config d;
     TRM_gradient := TRM_gradient d; num_segments := num_segments d;
     num_belowTRM := num_belowTRM d; model := model d;
     depthInterval := depthInterval d; positiveSeg := positiveSeg d;
     doubleTRM := doubleTRM d; gradient := gradient d; TRM_idx := TRM_idx d |}.

Definition set_TRM (v : option Q) (d : Detector) : Detector :=
  {| LEP := LEP d; TRM := v; UHY := UHY d; config := config d;
     TRM_gradient := TRM_gradient d; num_segments := num_segments d;
     num_belowTRM := num_belowTRM d; model := model d;
     depthInterval := depthInterval d; positiveSeg := positiveSeg d;
     doubleTRM := doubleTRM d; gradient := gradient d; TRM_idx := TRM_idx d |}.

Definition set_UHY (v : option Q) (d : Detector) : Detector :=
  {| LEP := LEP d; TRM := TRM d; UHY := v; config := config d;
     TRM_gradient := TRM_gradient d; num_segments := num_segments d;
     num_belowTRM := num_belowTRM d; model := model d;
     depthInterval := depthInterval d; positiveSeg := positiveSeg d;
     doubleTRM := doubleTRM d; gradient := gradient d; TRM_idx := TRM_idx d |}.

Definition set_TRM_gradient (v : option Q) (d : Detector) : Detector :=
  {| LEP := LEP d; TRM := TRM d; UHY := UHY d; config := config d;
     TRM_gradient := v; num_segments := num_segments d;
     num_belowTRM := num_belowTRM d; model := model d;
     depthInterval := depthInterval d; positiveSeg := positiveSeg d;
     doubleTRM := doubleTRM d; gradient := gradient d; TRM_idx := TRM_idx d |}.

Definition set_num_segments (v : option nat) (d : Detector) : Detector :=
  {| LEP := LEP d; TRM := TRM d; UHY := UHY d; config := config d;
     TRM_gradient := TRM_gradient d; num_segments := v;
     num_belowTRM := num_belowTRM d; model := model d;
     depthInterval := depthInterval d; positiveSeg := positiveSeg d;
     doubleTRM := doubleTRM d; gradient := gradient d; TRM_idx := TRM_idx d |}.

Definition set_model (v : option (list Segment)) (d : Detector) : Detector :=
  {| LEP := LEP d; TRM := TRM d; UHY := UHY d; config := config d;
     TRM_gradient := TRM_gradient d; num_segments := num_segments d;
     num_belowTRM := num_belowTRM d; model := v;
     depthInterval := depthInterval d; positiveSeg := positiveSeg d;
     doubleTRM := doubleTRM d; gradient := gradient d; TRM_idx := TRM_idx d |}.

Definition set_positiveSeg (v : list nat) (d : Detector) : Detector :=
  {| LEP := LEP d; TRM := TRM d; UHY := UHY d; config := config d;
     TRM_gradient := TRM_gradient d; num_segments := num_segments d;
     num_belowTRM := num_belowTRM d; model := model d;
     depthInterval := depthInterval d; positiveSeg := v;
     doubleTRM := doubleTRM d; gradient := gradient d; TRM_idx := TRM_idx d |}.

Definition set_doubleTRM (v : list nat) (d : Detector) : Detector :=
  {| LEP := LEP d; TRM := TRM d; UHY := UHY d; config := config d;
     TRM_gradient := TRM_gradient d; num_segments := num_segments d;
     num_belowTRM := num_belowTRM d; model := model d;
     depthInterval := depthInterval d; positiveSeg := positiveSeg d;
     doubleTRM := v; gradient := gradient d; TRM_idx := TRM_idx d |}.

Definition set_gradient (v : list Q) (d : Detector) : Detector :=
  {| LEP := LEP d; TRM := TRM d; UHY := UHY d; config := config d;
     TRM_gradient := TRM_gradient d; num_segments := num_segments d;
     num_belowTRM := num_belowTRM d; model := model d;
     depthInterval := depthInterval d; positiveSeg := positiveSeg d;
     doubleTRM := doubleTRM d; gradient := v; TRM_idx := TRM_idx d |}.

Definition set_TRM_idx (v : option nat) (d : Detector) : Detector :=
  {| LEP := LEP d; TRM := TRM d; UHY := UHY d; config := config d;
     TRM_gradient := TRM_gradient d; num_segments := num_segments d;
     num_belowTRM := num_belowTRM d; model := model d;
     depthInterval := depthInterval d; positiveSeg := positiveSeg d;
     doubleTRM := doubleTRM d; gradient := gradient d; TRM_idx := v |}.

(** [self.doubleTRM.append(i)] and [self.positiveSeg.append(i)] *)
Definition doubleTRM_append (i : nat) (d : Detector) : Detector :=
  set_doubleTRM (doubleTRM d ++ [i]) d.

Definition positiveSeg_append (i : nat) (d : Detector) : Detector :=
  set_positiveSeg (positiveSeg d ++ [i]) d.

(** ** [thermocline_segmentation.detectDoubleTRM] *)

(** The body of the loop, for one [i] of [range(1, len(segmentList)-1)]. *)
Definition detectDoubleTRM_body (segmentList : list Segment) (i : nat)
  : M Detector unit :=
  do self <- gets id;
  do segGradient <- lift
    (let? s := getitem segmentList (Z.of_nat i) in
     getGradientFromSegment self s);
  do previousSegGradient <- lift
    (let? s := getitem segmentList (Z.of_nat i - 1) in
     getGradientFromSegment self s);
  do nextSegGradient <- lift
    (let? s := getitem segmentList (Z.of_nat i + 1) in
     getGradientFromSegment self s);
  if Qltb (Qabs segGradient) (stable_gradient (config self))
     && Qltb (minTRM_gradient (config self)) previousSegGradient
     && Qltb (stable_gradient (config self)) nextSegGradient
  then modify (doubleTRM_append i)
  else mret tt.

Definition detectDoubleTRM (segmentList : list Segment) : M Detector unit :=
  forM_ (seq 1 (length segmentList - 2)) (detectDoubleTRM_body segmentList).

(** ** [thermocline_segmentation.detectPositiveGradient] *)

Definition enumerate {A} (l : list A) : list (nat * A) :=
  combine (seq 0 (length l)) l.

Definition detectPositiveGradient_body (p : nat * Segment) : M Detector unit :=
  do self <- gets id;
  do gradient <- lift (getGradientFromSegment self (snd p));
  if Qltb gradient (-1 * stable_gradient (config self))%Q
  then modify (positiveSeg_append (fst p))
  else mret tt.

Definition detectPositiveGradient (segmentList : list Segment)
  : M Detector unit :=
  run modify (set_positiveSeg []);
  forM_ (enumerate segmentList) detectPositiveGradient_body.

(** ** numpy and builtin helpers used by [detect] *)

(** [np.argmax]: the index of the first maximum; [ValueError] on an empty
    sequence. *)
Fixpoint argmax_from (best : Q) (bi i : nat) (l : list Q) : nat :=
  match l with
  | [] => bi
  | x :: l' =>
      if Qltb best x then argmax_from x i (S i) l'
      else argmax_from best bi (S i) l'
  end.

Definition np_argmax (l : list Q) : result nat :=
  match l with
  | [] => Raise ValueError
  | x :: l' => Ok (argmax_from x 0 1 l')
  end.

(** The builtin [max]: the first maximal item; [ValueError] on an empty
    sequence. *)
Definition pymax (l : list Q) : result Q :=
  match l with
  | [] => Raise ValueError
  | x :: l' => Ok (fold_left (fun b y => if Qltb b y then y else b) l' x)
  end.

(** [int(np.mean(l))] on a list of integers: the mean truncated toward
    zero.  The mean of an empty list is nan, which [int] refuses with a
    [ValueError]. *)
Definition int_mean (l : list Z) : result Z :=
  match l with
  | [] => Raise ValueError
  | _ :: _ => Ok (Z.quot (fold_right Z.add 0 l) (Z.of_nat (length l)))
  end.

(** [l.pop(0)], as the list that is left. *)
Definition pop0 {A} (l : list A) : result (list A) :=
  match l with
  | [] => Raise IndexError
  | _ :: l' => Ok l'
  end.

(** ** [thermocline_segmentation.detect] *)

(** Lines 123-139: the gradients of all segments, the index of the
    maximum, and the removal of a first segment caused by noise.  The
    value is the triple of [model.segmentList] (which [segmentList]
    aliases, so that [pop] is seen through both names), [gradient] and
    [maxGradient_index] as they stand at line 141. *)
Definition noise_guard (self : Detector) (data : DataFrame)
    (segmentList : list Segment) : result (list Segment * list Q * nat) :=
  let? gradient := mapR (getGradientFromSegment self) segmentList in
  let? maxGradient_index := np_argmax gradient in
  if Nat.eqb maxGradient_index 0 then
    let? seg := getitem segmentList (Z.of_nat maxGradient_index) in
    let? tmpDepth := mapR (loc (Depth data)) (point_index seg) in
    let? last := getitem tmpDepth (-1) in
    let? first := getitem tmpDepth 0 in
    if Qltb (last - first)%Q 2 then
      let? segmentList' := pop0 segmentList in
      let? gradient' := mapR (getGradientFromSegment self) segmentList' in
      let? maxGradient_index' := np_argmax gradient' in
      Ok (segmentList', gradient', maxGradient_index')
    else Ok (segmentList, gradient, maxGradient_index)
  else Ok (segmentList, gradient, maxGradient_index).

(** Lines 151-162: [LEP_index]. *)
Definition LEP_index_of (self : Detector) (segmentList : list Segment)
    (gradient : list Q) (maxGradient_index : nat) : result (option Z) :=
  let? epilimnion_seg := getitem segmentList 0 in
  let? LEP_index := getitem (point_index epilimnion_seg) (-1) in
  if Nat.eqb maxGradient_index 0 then Ok None
  else
    let? g1 := getitem gradient 1 in
    if Qltb (Qabs g1) (stable_gradient (config self)) then
      let? s1 := getitem segmentList 1 in
      let? i := getitem (point_index s1) (-1) in
      Ok (Some i)
    else
      let? g0 := getitem gradient 0 in
      if Qltb (stable_gradient2 (config self)) (Qabs g0) then Ok None
      else Ok (Some LEP_index).

(** Lines 165-178: [UHY_index]. *)
Definition UHY_index_of (self : Detector) (segmentList : list Segment)
    (gradient : list Q) (maxGradient_index : nat) : result (option Z) :=
  let? hypolimnion_seg := getitem segmentList (-1) in
  let? UHY_index := getitem (point_index hypolimnion_seg) 0 in
  if Z.eqb (Z.of_nat maxGradient_index) (Z.of_nat (length gradient) - 1)
  then Ok None
  else
    let? g2 := getitem gradient (-2) in
    if Qltb (Qabs g2) (stable_gradient (config self)) then
      let? s2 := getitem segmentList (-2) in
      let? i := getitem (point_index s2) 0 in
      Ok (Some i)
    else
      let? g1 := getitem gradient (-1) in
      if Qltb (stable_gradient2 (config self)) (Qabs g1) then Ok None
      else Ok (Some UHY_index).

(** Lines 148-184: the branch taken when the maximum gradient is above
    [minTRM_gradient]. *)
Definition detect_boundaries (data : DataFrame) (segmentList : list Segment)
    (gradient : list Q) (maxGradient_index : nat) : M Detector unit :=
  do seg <- lift (getitem segmentList (Z.of_nat maxGradient_index));
  do mid <- lift (int_mean (point_index seg));
  do trm <- lift (loc (Depth data) mid);
  run modify (set_TRM (Some trm));
  do self <- gets id;
  do LEP_index <- lift (LEP_index_of self segmentList gradient maxGradient_index);
  do UHY_index <- lift (UHY_index_of self segmentList gradient maxGradient_index);
  run match LEP_index with
      | Some i => do d <- lift (loc (Depth data) i); modify (set_LEP (Some d))
      | None => mret tt
      end;
  match UHY_index with
  | Some i => do d <- lift (loc (Depth data) i); modify (set_UHY (Some d))
  | None => mret tt
  end.

(** Lines 141-197: what [detect] does once [segmentList], [gradient] and
    [maxGradient_index] are settled. *)
Definition detect_finish (data : DataFrame) (saveModel : bool)
    (segmentList : list Segment) (gradient : list Q)
    (maxGradient_index : nat) : M Detector unit :=
  run modify (set_gradient gradient);
  do self <- gets id;
  do gmax <- lift (getitem gradient (Z.of_nat maxGradient_index));
  run (if Qltb (minTRM_gradient (config self)) gmax
       then detect_boundaries data segmentList gradient maxGradient_index
       else mret tt);
  do m <- lift (pymax gradient);
  run modify (set_TRM_gradient (Some m));
  run modify (set_num_segments (Some (length segmentList)));
  run modify (set_TRM_idx (Some maxGradient_index));
  run detectDoubleTRM segmentList;
  run detectPositiveGradient segmentList;
  if saveModel then modify (set_model (Some segmentList)) else mret tt.

Section Detectors.

(** The engines of [models.model_segmentation], [tools.signalProcessing],
    [models.model_HMM] and [models.model_threshold].
    [bottomUp_fit_predict max_error temperature] is the [segmentList] of a
    [bottomUp(max_error)] model after [fit_predict(temperature)]. *)
Variable bottomUp_fit_predict : Q -> list Q -> result (list Segment).

Definition detect (data : DataFrame) (saveModel : bool) : M Detector unit :=
  do self <- gets id;
  do segmentList <- lift
    (bottomUp_fit_predict (max_error (config self)) (Temperature data));
  do depthInterval <- lift
    (let? d1 := loc (Depth data) 1 in
     let? d0 := loc (Depth data) 0 in
     Ok (d1 - d0)%Q);
  do guarded <- lift (noise_guard self data segmentList);
  detect_finish data saveModel
    (fst (fst guarded)) (snd (fst guarded)) (snd guarded).

(** ** [thermocline_HMM] and [thermocline_threshold] *)

(** The data frame of [extractSignalFeatures], with the two columns the
    detectors read. *)
Record SignalFrame : Type := {
  signal_Depth : list Q;
  Power : list Q
}.

Variable extractSignalFeatures : DataFrame -> result SignalFrame.
Variable hmm_fit_predict : SignalFrame -> result (list Z).
Variable threshold_fit_predict : list Q -> result (list Z).

(** The attributes of [thermocline_base]. *)
Record BaseDetector : Type := {
  base_LEP : option Q;
  base_TRM : option Q;
  base_UHY : option Q;
  base_config : Config
}.

Definition base_init (cfg : Config) : BaseDetector :=
  {| base_LEP := None; base_TRM := None; base_UHY := None;
     base_config := cfg |}.

Definition set_base_LEP (v : option Q) (d : BaseDetector) : BaseDetector :=
  {| base_LEP := v; base_TRM := base_TRM d; base_UHY := base_UHY d;
     base_config := base_config d |}.

Definition set_base_TRM (v : option Q) (d : BaseDetector) : BaseDetector :=
  {| base_LEP := base_LEP d; base_TRM := v; base_UHY := base_UHY d;
     base_config := base_config d |}.

Definition set_base_UHY (v : option Q) (d : BaseDetector) : BaseDetector :=
  {| base_LEP := base_LEP d; base_TRM := base_TRM d; base_UHY := v;
     base_config := base_config d |}.

(** Lines 207-209 and 216-218: the three depths read from [res]. *)
Definition read_depths (depth : list Q) (res : list Z) : M BaseDetector unit :=
  do trm <- lift (let? i := getitem res 0 in loc depth i);
  run modify (set_base_TRM (Some trm));
  do lep <- lift (let? i := getitem res 1 in loc depth i);
  run modify (set_base_LEP (Some lep));
  do uhy <- lift (let? i := getitem res 2 in loc depth i);
  modify (set_base_UHY (Some uhy)).

Definition HMM_detect (data : DataFrame) : M BaseDetector unit :=
  do signal_data <- lift (extractSignalFeatures data);
  do res <- lift (hmm_fit_predict signal_data);
  read_depths (signal_Depth signal_data) res.

Definition threshold_detect (data : DataFrame) : M BaseDetector unit :=
  do signal_data <- lift (extractSignalFeatures data);
  do res <- lift (threshold_fit_predict (Power signal_data));
  read_depths (signal_Depth signal_data) res.

(** ** [thermocline.detect] *)

(** The values stored in the [features] dictionary. *)
Inductive pyval : Type :=
| VNone
| VFloat (q : Q)
| VInt (n : Z).

Definition of_float (o : option Q) : pyval :=
  match o with Some q => VFloat q | None => VNone end.

Definition of_int (o : option nat) : pyval :=
  match o with Some n => VInt (Z.of_nat n) | None => VNone end.

(** The local dictionary [features] and the attribute [self.models]. *)
Record Ensemble : Type := {
  features : gmap string pyval;
  models : gmap string (option (list Segment))
}.

Definition setitem (k : string) (v : pyval) (e : Ensemble) : Ensemble :=
  {| features := <[k := v]> (features e); models := models e |}.

Definition models_setitem (k : string) (v : option (list Segment))
    (e : Ensemble) : Ensemble :=
  {| features := features e; models := <[k := v]> (models e) |}.

(** [model = C(self.config); model.detect(...)]: the detector object when
    [detect] returns, the exception when it raises. *)
Definition construct_and_run {S E} (m : M S unit) (s0 : S) : M E S :=
  lift (match m s0 with
        | (s, Ok _) => Ok s
        | (_, Raise e) => Raise e
        end).

(** Lines 239-245. *)
Definition initial_features : gmap string pyval :=
  <["TRM_num_segment" := VNone]> (<["TRM_gradient_segment" := VNone]>
  (fold_left
     (fun f d =>
        fold_left (fun f m => <[String.append d (String.append "_" m) := VNone]> f)
                  ["segment"; "HMM"; "threshold"] f)
     ["TRM"; "LEP"; "UHY"] ∅))%string.

(** Lines 251-280: the body of the first [try]. *)
Definition segmentation_body (cfg : Config) (data : DataFrame)
    (saveModel : bool) : M Ensemble unit :=
  do mdl <- construct_and_run (detect data saveModel) (init cfg);
  run modify (setitem "TRM_gradient_segment" (of_float (TRM_gradient mdl)));
  run modify (setitem "TRM_segment" (of_float (TRM mdl)));
  run modify (setitem "LEP_segment" (of_float (LEP mdl)));
  run modify (setitem "UHY_segment" (of_float (UHY mdl)));
  run modify (setitem "TRM_num_segment" (of_int (num_segments mdl)));
  run modify (setitem "TRM_idx" (of_int (TRM_idx mdl)));
  run modify (setitem "doubleTRM" (VInt (Z.of_nat (length (doubleTRM mdl)))));
  run modify (setitem "positiveGradient"
                (VInt (Z.of_nat (length (positiveSeg mdl)))));
  do g <- lift (getitem (gradient mdl) 0);
  run modify (setitem "firstSegmentGradient" (VFloat g));
  do g <- lift (getitem (gradient mdl) (-1));
  run modify (setitem "lastSegmentGradient" (VFloat g));
  do g <- lift (getitem (gradient mdl) (-2));
  run modify (setitem "lastButTwoSegmentGradient" (VFloat g));
  if saveModel then modify (models_setitem "segmentation" (model mdl))
  else mret tt.

(** Lines 288-293 and 300-306: the bodies of the second and third [try]. *)
Definition HMM_body (cfg : Config) (data : DataFrame) : M Ensemble unit :=
  do mdl <- construct_and_run (HMM_detect data) (base_init cfg);
  run modify (setitem "TRM_HMM" (of_float (base_TRM mdl)));
  run modify (setitem "LEP_HMM" (of_float (base_LEP mdl)));
  modify (setitem "UHY_HMM" (of_float (base_UHY mdl))).

Definition threshold_body (cfg : Config) (data : DataFrame) : M Ensemble unit :=
  do mdl <- construct_and_run (threshold_detect data) (base_init cfg);
  run modify (setitem "TRM_threshold" (of_float (base_TRM mdl)));
  run modify (setitem "LEP_threshold" (of_float (base_LEP mdl)));
  modify (setitem "UHY_threshold" (of_float (base_UHY mdl))).

Definition is_in (m : string) (methods : list string) : bool :=
  bool_decide (m ∈ methods).

(** [thermocline.detect(data, methods, saveModel)] on an object whose
    [models] attribute is [models0]: the features returned and the
    [models] attribute afterwards. *)
Definition thermocline_detect (cfg : Config)
    (models0 : gmap string (option (list Segment)))
    (data : DataFrame) (methods : list string) (saveModel : bool)
  : Ensemble * result (gmap string pyval) :=
  (run (if is_in "segmentation" methods
        then try_except (segmentation_body cfg data saveModel) else mret tt);
   run (if is_in "HMM" methods
        then try_except (HMM_body cfg data) else mret tt);
   run (if is_in "threshold" methods
        then try_except (threshold_body cfg data) else mret tt);
   gets features)
  {| features := initial_features; models := models0 |}.

End Detectors.

(** ** Flagged indices, as sets of positions of the gradient list *)

Definition double_marker (cfg : Config) (g : list Q) (i : nat) : bool :=
  (1 <=? i)%nat && (i + 2 <=? length g)%nat &&
  match g !! (i - 1)%nat, g !! i, g !! (i + 1)%nat with
  | Some gp, Some gi, Some gn =>
      Qltb (Qabs gi) (stable_gradient cfg)
      && Qltb (minTRM_gradient cfg) gp
      && Qltb (stable_gradient cfg) gn
  | _, _, _ => false
  end.

Definition double_flagged (cfg : Config) (g : list Q) : list nat :=
  List.filter (double_marker cfg g) (seq 0 (length g)).

Definition positive_marker (cfg : Config) (g : list Q) (i : nat) : bool :=
  match g !! i with
  | Some gi => Qltb gi (- stable_gradient cfg)
  | None => false
  end.

Definition positive_flagged (cfg : Config) (g : list Q) : list nat :=
  List.filter (positive_marker cfg g) (seq 0 (length g)).


(** The positions, counted from [k], of the items of [gl] that satisfy
    [h]. *)
Fixpoint positions_from (h : Q -> bool) (k : nat) (gl : list Q) : list nat :=
  match gl with
  | [] => []
  | x :: r => if h x then k :: positions_from h (S k) r
              else positions_from h (S k) r
  end.


(** Example inputs: a configuration, a four-segment list whose gradients
    are [5; 0; 5; -1], and an eleven-sample profile. *)
Definition qs (l : list Z) : list Q := map inject_Z l.

Definition cfg0 : Config :=
  {| Interval := 1; max_error := 1; stable_gradient := 1 # 2;
     stable_gradient2 := 3 # 2; minTRM_gradient := 2 |}.

Definition segs_double : list Segment :=
  [ {| fitted_line := qs [20; 15; 10]%Z; point_index := [0; 1; 2]%Z |};
    {| fitted_line := qs [10; 10; 10]%Z; point_index := [3; 4; 5]%Z |};
    {| fitted_line := qs [10; 5]%Z; point_index := [6; 7]%Z |};
    {| fitted_line := qs [0; 1; 2]%Z; point_index := [8; 9; 10]%Z |} ].

Definition data0 : DataFrame :=
  {| Depth := qs [0; 1; 2; 3; 4; 5; 6; 7; 8; 9; 10]%Z;
     Temperature := qs [20; 15; 10; 10; 10; 10; 10; 5; 0; 1; 2]%Z |}.

(** A three-segment list whose first two segments are both steep and
    one depth unit long: gradients [10; 5; 0]. *)
Definition segs_noise : list Segment :=
  [ {| fitted_line := qs [20; 10]%Z; point_index := [0; 1]%Z |};
    {| fitted_line := qs [10; 5]%Z; point_index := [2; 3]%Z |};
    {| fitted_line := qs [5; 5; 5; 5; 5; 5; 5]%Z;
       point_index := [4; 5; 6; 7; 8; 9; 10]%Z |} ].

(** What lines 189-197 leave in a detector [s], for a gradient list [g]
    with maximum [gm] at index [i]. *)
Definition finalize (saveModel : bool) (segs : list Segment) (g : list Q)
    (i : nat) (gm : Q) (s : Detector) : Detector :=
  let s1 := set_TRM_idx (Some i)
              (set_num_segments (Some (length segs))
                 (set_TRM_gradient (Some gm) s)) in
  let s2 := set_doubleTRM (doubleTRM s ++ double_flagged (config s) g) s1 in
  let s3 := set_positiveSeg (positive_flagged (config s) g) s2 in
  if saveModel then set_model (Some segs) s3 else s3.

(** A flat profile in two segments: gradients [0; 0]. *)
Definition segs_flat : list Segment :=
  [ {| fitted_line := qs [20; 20; 20; 20; 20]%Z;
       point_index := [0; 1; 2; 3; 4]%Z |};
    {| fitted_line := qs [20; 20; 20; 20; 20; 20]%Z;
       point_index := [5; 6; 7; 8; 9; 10]%Z |} ].

(** A segment the boundary rules can read: its index list is not empty
    and every index is a label of the profile. *)
Definition wf_segment (data : DataFrame) (seg : Segment) : Prop :=
  point_index seg <> [] /\
  Forall (fun k => 0 <= k < Z.of_nat (length (Depth data)))%Z (point_index seg).

(** The depth a boundary index stands for: [None] stays [None]. *)
Definition depth_of (data : DataFrame) (o : option Z) : option Q :=
  match o with
  | Some k => Depth data !! Z.to_nat k
  | None => None
  end.

Definition in_profile (data : DataFrame) (o : option Z) : Prop :=
  match o with
  | Some k => (0 <= k < Z.of_nat (length (Depth data)))%Z
  | None => True
  end.


(** A profile with one steep segment over the indices 3 and 4:
    gradients [0; 10; 0]. *)
Definition segs_mid : list Segment :=
  [ {| fitted_line := qs [20; 20; 20]%Z; point_index := [0; 1; 2]%Z |};
    {| fitted_line := qs [20; 10]%Z; point_index := [3; 4]%Z |};
    {| fitted_line := qs [10; 10; 10; 10; 10; 10]%Z;
       point_index := [5; 6; 7; 8; 9; 10]%Z |} ].

(** The builtin [round] on a float: to the nearest integer, a half going
    away from zero. *)
Definition pyround (q : Q) : Z :=
  if Qltb q 0 then (- Qfloor (- q + (1 # 2)))%Z else Qfloor (q + (1 # 2)).

(** A one-segment fit of the profile: gradient [3]. *)
Definition segs_single : list Segment :=
  [ {| fitted_line := qs [30; 27; 24; 21; 18; 15; 12; 9; 6; 3; 0]%Z;
       point_index := [0; 1; 2; 3; 4; 5; 6; 7; 8; 9; 10]%Z |} ].

(** Engines for the examples: the signal frame repeats the profile, and
    the two statistical engines return fixed indices. *)
Definition signal_of (data : DataFrame) : result SignalFrame :=
  Ok {| signal_Depth := Depth data; Power := Temperature data |}.

Definition hmm_fixed (_ : SignalFrame) : result (list Z) := Ok [5; 3; 7]%Z.

Definition threshold_fixed (_ : list Q) : result (list Z) := Ok [5; 4; 6]%Z.

Definition all_methods : list string :=
  ["segmentation"; "HMM"; "threshold"]%string.

(** The keys of the segmentation strategy that line 239-245 initialize,
    and the keys of the two other strategies. *)
Definition segment_keys : list string :=
  ["TRM_segment"; "LEP_segment"; "UHY_segment";
   "TRM_gradient_segment"; "TRM_num_segment"]%string.

Definition HMM_keys : list string :=
  ["TRM_HMM"; "LEP_HMM"; "UHY_HMM"]%string.

Definition threshold_keys : list string :=
  ["TRM_threshold"; "LEP_threshold"; "UHY_threshold"]%string.

(** [methods] without the method [m]. *)
Definition without (m : string) (methods : list string) : list string :=
  List.filter (fun x => negb (String.eqb x m)) methods.

(** The two values the specification names: the fitted line's temperature
    at the segment's first and at its last index. *)
Definition startValue (seg : Segment) : option Q := head (fitted_line seg).

Definition endValue (seg : Segment) : option Q := last (fitted_line seg).

(** * Properties *)

Local Open Scope Q_scope.

(** ** Numbers *)

Lemma Qltb_lt (x y : Q) : Qltb x y = true <-> (x < y)%Q.
Proof. unfold Qltb, Qlt. apply Z.ltb_lt. Qed.

Lemma Qltb_ge (x y : Q) : Qltb x y = false <-> (y <= x)%Q.
Proof. unfold Qltb, Qle. rewrite Z.ltb_ge. reflexivity. Qed.

Lemma Qdiv_pos_iff (x d : Q) : 0 < d -> (0 < x / d <-> 0 < x).
Proof.
  intros Hd. unfold Qdiv.
  assert (Hi : 0 < / d) by (apply Qinv_lt_0_compat; exact Hd).
  rewrite <- (Qmult_lt_r 0 x (/ d) Hi).
  rewrite Qmult_0_l. reflexivity.
Qed.

Lemma Qsub_pos_iff (a b : Q) : 0 < a - b <-> b < a.
Proof. unfold Qminus. symmetry. apply Qlt_minus_iff. Qed.

Lemma pydiv_nonzero (a b : Q) : ~ b == 0 -> pydiv a b = Ok (a / b).
Proof.
  intros Hb. unfold pydiv.
  destruct (Qeq_bool b 0) eqn:E; [|reflexivity].
  apply Qeq_bool_iff in E. contradiction.
Qed.

Lemma getGradient_cons2 self seg a b rest :
  fitted_line seg = a :: b :: rest ->
  getGradientFromSegment self seg = pydiv (a - b) (depthInterval self).
Proof.
  intros H. unfold getGradientFromSegment. rewrite H.
  unfold getitem. cbn [length].
  replace (0 <? 0)%Z with false by reflexivity.
  replace (1 <? 0)%Z with false by reflexivity.
  assert (H0 : ((0 <=? 0) && (0 <? Z.of_nat (S (S (length rest)))))%Z = true).
  { apply andb_true_iff. split; [reflexivity | apply Z.ltb_lt; lia]. }
  assert (H1 : ((0 <=? 1) && (1 <? Z.of_nat (S (S (length rest)))))%Z = true).
  { apply andb_true_iff. split; [reflexivity | apply Z.ltb_lt; lia]. }
  rewrite H0, H1. reflexivity.
Qed.

(** C1, as the code has it.  For a segment whose fitted line holds at
    least two values and a non-zero configured interval, the gradient is
    [(line[0] - line[1]) / Interval]: the drop between the first two
    fitted values over the configured depth interval.  With a positive
    interval it is positive exactly when the fitted temperature decreases
    from the first value to the second.  The two values are the ones at
    the segment's first and last index when the fitted line holds exactly
    two values. *)
Theorem gradient_first_two_values self seg a b rest :
  fitted_line seg = a :: b :: rest ->
  ~ depthInterval self == 0 ->
  getGradientFromSegment self seg = Ok ((a - b) / depthInterval self)
  /\ (0 < depthInterval self ->
      (0 < (a - b) / depthInterval self <-> b < a))
  /\ (rest = [] -> startValue seg = Some a /\ endValue seg = Some b).
Proof.
  intros Hl Hd. split; [|split].
  - rewrite (getGradient_cons2 _ _ _ _ _ Hl). apply pydiv_nonzero, Hd.
  - intros Hpos. rewrite (Qdiv_pos_iff _ _ Hpos). apply Qsub_pos_iff.
  - intros ->. unfold startValue, endValue. rewrite Hl. split; reflexivity.
Qed.

Lemma gradient_first_two_values_witness :
  getGradientFromSegment (init cfg0)
    {| fitted_line := qs [20; 15; 10]%Z; point_index := [0; 1; 2]%Z |}
  = Ok ((20 - 15) / 1).
Proof.
  destruct (gradient_first_two_values (init cfg0)
              {| fitted_line := qs [20; 15; 10]%Z;
                 point_index := [0; 1; 2]%Z |}
              20 15 (qs [10]%Z) eq_refl ltac:(discriminate))
    as [H _].
  exact H.
Defined.

(** C1, the claim as stated, fails.  For the fitted line [20; 15; 10] and
    the interval 1, the values at the segment's first and last index are
    20 and 10, so that the claim gives [(20 - 10) / 1 = 10]; the code
    reads the first two values and returns 5. *)
Lemma gradient_not_first_minus_last :
  exists seg a b g,
    startValue seg = Some a /\ endValue seg = Some b /\
    getGradientFromSegment (init cfg0) seg = Ok g /\
    g == 5 /\
    ~ g == (a - b) / depthInterval (init cfg0).
Proof.
  exists {| fitted_line := qs [20; 15; 10]%Z; point_index := [0; 1; 2]%Z |}.
  exists 20, 10. eexists.
  split; [reflexivity|]. split; [reflexivity|]. split; [reflexivity|].
  split; [reflexivity|]. discriminate.
Qed.

(** ** Sequences and results *)

Lemma getitem_nat {A} (l : list A) (i : nat) (x : A) :
  l !! i = Some x -> getitem l (Z.of_nat i) = Ok x.
Proof.
  intros H. unfold getitem.
  pose proof (lookup_lt_Some _ _ _ H) as Hlt.
  destruct (Z.ltb_spec (Z.of_nat i) 0); [lia|].
  destruct (Z.leb_spec 0 (Z.of_nat i)); [|lia].
  destruct (Z.ltb_spec (Z.of_nat i) (Z.of_nat (length l))); [|lia].
  cbn [andb]. rewrite Nat2Z.id, H. reflexivity.
Qed.

Lemma getitem_nat_fail {A} (l : list A) (i : nat) :
  (length l <= i)%nat -> getitem l (Z.of_nat i) = Raise IndexError.
Proof.
  intros H. unfold getitem.
  destruct (Z.ltb_spec (Z.of_nat i) 0); [lia|].
  destruct (Z.ltb_spec (Z.of_nat i) (Z.of_nat (length l))); [lia|].
  rewrite andb_false_r. reflexivity.
Qed.

Lemma getitem_neg {A} (l : list A) (k : nat) (x : A) :
  (1 <= k <= length l)%nat ->
  l !! (length l - k)%nat = Some x ->
  getitem l (- Z.of_nat k) = Ok x.
Proof.
  intros Hk H. unfold getitem.
  destruct (Z.ltb_spec (- Z.of_nat k) 0); [|lia].
  destruct (Z.leb_spec 0 (- Z.of_nat k + Z.of_nat (length l))); [|lia].
  destruct (Z.ltb_spec (- Z.of_nat k + Z.of_nat (length l)) (Z.of_nat (length l))); [|lia].
  cbn [andb].
  replace (Z.to_nat (- Z.of_nat k + Z.of_nat (length l))) with (length l - k)%nat by lia.
  rewrite H. reflexivity.
Qed.

Lemma getitem_neg_fail {A} (l : list A) (k : nat) :
  (length l < k)%nat -> getitem l (- Z.of_nat k) = Raise IndexError.
Proof.
  intros Hk. unfold getitem.
  destruct (Z.ltb_spec (- Z.of_nat k) 0); [|lia].
  destruct (Z.leb_spec 0 (- Z.of_nat k + Z.of_nat (length l))); [lia|].
  reflexivity.
Qed.

Lemma mapR_length {A B} (f : A -> result B) l ys :
  mapR f l = Ok ys -> length ys = length l.
Proof.
  revert ys. induction l as [|x l IH]; intros ys H; cbn in H.
  - inversion H. reflexivity.
  - destruct (f x); [|discriminate]. cbn in H.
    destruct (mapR f l); [|discriminate]. cbn in H. inversion H.
    cbn. f_equal. apply IH. reflexivity.
Qed.

Lemma mapR_lookup {A B} (f : A -> result B) l ys i x :
  mapR f l = Ok ys -> l !! i = Some x ->
  exists y, ys !! i = Some y /\ f x = Ok y.
Proof.
  revert ys i. induction l as [|a l IH]; intros ys i H Hx; [discriminate|].
  cbn in H. destruct (f a) eqn:Ea; [|discriminate]. cbn in H.
  destruct (mapR f l) eqn:El; [|discriminate]. cbn in H. inversion H; subst.
  destruct i as [|i]; cbn in Hx.
  - inversion Hx; subst. eexists. split; [reflexivity | exact Ea].
  - cbn. eapply IH; [reflexivity | exact Hx].
Qed.

Lemma mapR_lookup_inv {A B} (f : A -> result B) l ys i y :
  mapR f l = Ok ys -> ys !! i = Some y ->
  exists x, l !! i = Some x /\ f x = Ok y.
Proof.
  intros H Hy.
  pose proof (mapR_length _ _ _ H) as Hlen.
  pose proof (lookup_lt_Some _ _ _ Hy) as Hlt.
  destruct (lookup_lt_is_Some_2 l i) as [x Hx]; [lia|].
  destruct (mapR_lookup _ _ _ _ _ H Hx) as (y' & Hy' & Hf).
  rewrite Hy in Hy'. inversion Hy'; subst. eauto.
Qed.

(** ** The anomaly detectors *)

Lemma set_doubleTRM_id self : set_doubleTRM (doubleTRM self ++ []) self = self.
Proof. destruct self. unfold set_doubleTRM. cbn. rewrite app_nil_r. reflexivity. Qed.

Lemma set_positiveSeg_id self : set_positiveSeg (positiveSeg self ++ []) self = self.
Proof. destruct self. unfold set_positiveSeg. cbn. rewrite app_nil_r. reflexivity. Qed.

(** One iteration of the loop of [detectDoubleTRM], at an interior index. *)
Lemma detectDoubleTRM_body_interior self segs g i :
  mapR (getGradientFromSegment self) segs = Ok g ->
  (1 <= i)%nat -> (i + 2 <= length g)%nat ->
  detectDoubleTRM_body segs i self =
  ((if double_marker (config self) g i then doubleTRM_append i self else self),
   Ok tt).
Proof.
  intros Hg H1 H2.
  pose proof (mapR_length _ _ _ Hg) as Hlen.
  destruct (lookup_lt_is_Some_2 segs i) as [si Hsi]; [lia|].
  destruct (lookup_lt_is_Some_2 segs (i - 1)) as [sp Hsp]; [lia|].
  destruct (lookup_lt_is_Some_2 segs (i + 1)) as [sn Hsn]; [lia|].
  destruct (mapR_lookup _ _ _ _ _ Hg Hsi) as (gi & Hgi & Hfi).
  destruct (mapR_lookup _ _ _ _ _ Hg Hsp) as (gp & Hgp & Hfp).
  destruct (mapR_lookup _ _ _ _ _ Hg Hsn) as (gn & Hgn & Hfn).
  unfold detectDoubleTRM_body, mbind, gets, lift, id.
  rewrite (getitem_nat _ _ _ Hsi). cbn [rbind]. rewrite Hfi.
  replace (Z.of_nat i - 1)%Z with (Z.of_nat (i - 1)) by lia.
  rewrite (getitem_nat _ _ _ Hsp). cbn [rbind]. rewrite Hfp.
  replace (Z.of_nat i + 1)%Z with (Z.of_nat (i + 1)) by lia.
  rewrite (getitem_nat _ _ _ Hsn). cbn [rbind]. rewrite Hfn.
  unfold double_marker. rewrite Hgi, Hgp, Hgn.
  destruct (Nat.leb_spec 1 i); [|lia].
  destruct (Nat.leb_spec (i + 2) (length g)); [|lia].
  cbn [andb].
  destruct (_ && _ && _); reflexivity.
Qed.

Lemma detectDoubleTRM_loop segs g l : forall self,
  mapR (getGradientFromSegment self) segs = Ok g ->
  Forall (fun i => 1 <= i /\ i + 2 <= length g)%nat l ->
  forM_ l (detectDoubleTRM_body segs) self =
  (set_doubleTRM
     (doubleTRM self ++ List.filter (double_marker (config self) g) l) self,
   Ok tt).
Proof.
  induction l as [|i l IH]; intros self Hg Hl.
  - cbn. unfold mret. rewrite set_doubleTRM_id. reflexivity.
  - inversion Hl as [|? ? [H1 H2] Hl']; subst.
    cbn [forM_ List.filter]. unfold mbind at 1.
    rewrite (detectDoubleTRM_body_interior _ _ _ _ Hg H1 H2).
    destruct (double_marker (config self) g i).
    + rewrite (IH (doubleTRM_append i self) Hg Hl').
      cbn. rewrite <- app_assoc. reflexivity.
    + apply (IH self Hg Hl').
Qed.

Lemma filter_all_false {A} (f : A -> bool) (l : list A) :
  (forall x, In x l -> f x = false) -> List.filter f l = [].
Proof.
  induction l as [|x l IH]; intros H; [reflexivity|].
  cbn. rewrite (H x (or_introl eq_refl)). apply IH.
  intros y Hy. apply H. right. exact Hy.
Qed.

Lemma filter_seq_interior (f : nat -> bool) (n : nat) :
  (forall i, f i = true -> 1 <= i /\ i + 2 <= n)%nat ->
  List.filter f (seq 0 n) = List.filter f (seq 1 (n - 2)).
Proof.
  intros Hf.
  destruct (Nat.le_gt_cases n 1) as [Hn|Hn].
  - replace (n - 2)%nat with 0%nat by lia. cbn.
    apply filter_all_false. intros i Hi. apply in_seq in Hi.
    destruct (f i) eqn:E; [|reflexivity]. apply Hf in E. lia.
  - replace n with (1 + (n - 2) + 1)%nat at 1 by lia.
    rewrite !seq_app, !List.filter_app. cbn [seq List.filter].
    destruct (f 0%nat) eqn:E0; [apply Hf in E0; lia|].
    destruct (f (0 + 1 + (n - 2))%nat) eqn:E1; [apply Hf in E1; lia|].
    cbn in E1 |- *. rewrite E1, app_nil_r. reflexivity.
Qed.

Lemma double_marker_interior cfg g i :
  double_marker cfg g i = true -> (1 <= i /\ i + 2 <= length g)%nat.
Proof.
  unfold double_marker. intros H.
  apply andb_true_iff in H. destruct H as [H _].
  apply andb_true_iff in H. destruct H as [Ha Hb].
  apply Nat.leb_le in Ha. apply Nat.leb_le in Hb. lia.
Qed.

(** [detectDoubleTRM] appends the flagged interior indices to
    [self.doubleTRM]. *)
Lemma detectDoubleTRM_appends self segs g :
  mapR (getGradientFromSegment self) segs = Ok g ->
  detectDoubleTRM segs self =
  (set_doubleTRM (doubleTRM self ++ double_flagged (config self) g) self, Ok tt).
Proof.
  intros Hg. unfold detectDoubleTRM.
  pose proof (mapR_length _ _ _ Hg) as Hlen.
  rewrite (detectDoubleTRM_loop segs g _ self Hg).
  - unfold double_flagged.
    rewrite (filter_seq_interior _ _ (double_marker_interior (config self) g)).
    rewrite Hlen. reflexivity.
  - apply List.Forall_forall. intros i Hi. apply in_seq in Hi. lia.
Qed.

Lemma Qltb_compat_r (x y y' : Q) : y == y' -> Qltb x y = Qltb x y'.
Proof.
  intros E. destruct (Qltb x y') eqn:H.
  - apply Qltb_lt. apply Qltb_lt in H. rewrite E. exact H.
  - apply Qltb_ge. apply Qltb_ge in H. rewrite E. exact H.
Qed.

Lemma positions_from_filter h gl : forall k,
  positions_from h k gl =
  List.filter (fun i => match gl !! (i - k)%nat with
                        | Some gi => h gi
                        | None => false
                        end) (seq k (length gl)).
Proof.
  induction gl as [|x r IH]; intros k; [reflexivity|].
  cbn [positions_from length seq List.filter].
  rewrite Nat.sub_diag. cbn [lookup list_lookup].
  rewrite (IH (S k)).
  assert (E : List.filter
                (fun i => match (x :: r) !! (i - k)%nat with
                          | Some gi => h gi | None => false end)
                (seq (S k) (length r)) =
              List.filter
                (fun i => match r !! (i - S k)%nat with
                          | Some gi => h gi | None => false end)
                (seq (S k) (length r))).
  { apply List.filter_ext_in. intros i Hi. apply in_seq in Hi.
    replace (i - k)%nat with (S (i - S k)) by lia. reflexivity. }
  rewrite E. reflexivity.
Qed.

Lemma positive_flagged_positions cfg g :
  positive_flagged cfg g =
  positions_from (fun x => Qltb x (- stable_gradient cfg)) 0 g.
Proof.
  rewrite positions_from_filter. unfold positive_flagged.
  apply List.filter_ext. intros i. unfold positive_marker.
  rewrite Nat.sub_0_r. reflexivity.
Qed.

Lemma detectPositiveGradient_loop l : forall gl k self,
  mapR (getGradientFromSegment self) l = Ok gl ->
  forM_ (combine (seq k (length l)) l) detectPositiveGradient_body self =
  (set_positiveSeg
     (positiveSeg self ++
      positions_from (fun x => Qltb x (- stable_gradient (config self))) k gl)
     self,
   Ok tt).
Proof.
  induction l as [|s l IH]; intros gl k self Hg.
  - cbn in Hg. inversion Hg; subst. cbn. unfold mret.
    rewrite set_positiveSeg_id. reflexivity.
  - cbn in Hg. destruct (getGradientFromSegment self s) as [x|] eqn:Es;
      [|discriminate]. cbn in Hg.
    destruct (mapR (getGradientFromSegment self) l) as [r|] eqn:El;
      [|discriminate]. cbn in Hg. inversion Hg; subst gl.
    cbn [length seq combine forM_ positions_from].
    unfold mbind at 1. unfold detectPositiveGradient_body at 1.
    unfold mbind, gets, lift, id. cbn [fst snd]. rewrite Es.
    rewrite (Qltb_compat_r x (-1 * stable_gradient (config self))
               (- stable_gradient (config self))) by ring.
    destruct (Qltb x (- stable_gradient (config self))).
    + cbn [modify]. unfold modify.
      rewrite (IH r (S k) (positiveSeg_append k self) El).
      cbn. rewrite <- app_assoc. reflexivity.
    + unfold mret. apply (IH r (S k) self El).
Qed.

(** [detectPositiveGradient] replaces [self.positiveSeg] by the flagged
    indices. *)
Lemma detectPositiveGradient_replaces self segs g :
  mapR (getGradientFromSegment self) segs = Ok g ->
  detectPositiveGradient segs self =
  (set_positiveSeg (positive_flagged (config self) g) self, Ok tt).
Proof.
  intros Hg. unfold detectPositiveGradient, mbind, modify, enumerate.
  rewrite (detectPositiveGradient_loop segs g 0 (set_positiveSeg [] self) Hg).
  rewrite positive_flagged_positions. reflexivity.
Qed.


Lemma filter_seq_NoDup (f : nat -> bool) (a n : nat) :
  List.NoDup (List.filter f (seq a n)).
Proof. apply List.NoDup_filter, List.seq_NoDup. Qed.






Lemma count_occ_NoDup_In (l : list nat) (i : nat) :
  List.NoDup l -> In i l -> count_occ Nat.eq_dec l i = 1%nat.
Proof. intros Hnd Hi. apply (proj1 (List.NoDup_count_occ' Nat.eq_dec l) Hnd i Hi). Qed.

Lemma double_flagged_NoDup cfg g : List.NoDup (double_flagged cfg g).
Proof. apply filter_seq_NoDup. Qed.

(** C10. On any detector object, [detectPositiveGradient] leaves in
    [positiveSeg] exactly the flagged indices of the list it was given,
    whatever the list held before; [detectDoubleTRM] appends the flagged
    interior indices to what [doubleTRM] held, so that two calls leave
    every flagged index twice more than before (exactly twice on a
    detector that started with an empty [doubleTRM]), and one call gives
    exactly the flagged indices only when [doubleTRM] was empty. *)
Theorem doubleTRM_accumulates self segs g :
  mapR (getGradientFromSegment self) segs = Ok g ->
  (exists st,
     detectPositiveGradient segs self = (st, Ok tt) /\
     positiveSeg st = positive_flagged (config self) g) /\
  (exists st1 st2,
     detectDoubleTRM segs self = (st1, Ok tt) /\
     detectDoubleTRM segs st1 = (st2, Ok tt) /\
     doubleTRM st1 = doubleTRM self ++ double_flagged (config self) g /\
     doubleTRM st2 =
       doubleTRM self ++ double_flagged (config self) g
                      ++ double_flagged (config self) g /\
     (forall i, In i (double_flagged (config self) g) ->
        count_occ Nat.eq_dec (doubleTRM st2) i =
        (count_occ Nat.eq_dec (doubleTRM self) i + 2)%nat) /\
     (doubleTRM self = [] ->
        doubleTRM st1 = double_flagged (config self) g /\
        forall i, In i (double_flagged (config self) g) ->
          count_occ Nat.eq_dec (doubleTRM st2) i = 2%nat) /\
     (doubleTRM st1 = double_flagged (config self) g -> doubleTRM self = [])).
Proof.
  intros Hg. split.
  - eexists. split; [apply (detectPositiveGradient_replaces _ _ g Hg)|].
    reflexivity.
  - eexists. eexists.
    split; [apply (detectDoubleTRM_appends _ _ _ Hg)|].
    split; [apply (detectDoubleTRM_appends _ _ g); exact Hg|].
    cbn [doubleTRM set_doubleTRM config].
    assert (Hcount : forall i, In i (double_flagged (config self) g) ->
              count_occ Nat.eq_dec
                ((doubleTRM self ++ double_flagged (config self) g)
                   ++ double_flagged (config self) g) i =
              (count_occ Nat.eq_dec (doubleTRM self) i + 2)%nat).
    { intros i Hi. rewrite !count_occ_app.
      rewrite (count_occ_NoDup_In _ _ (double_flagged_NoDup _ _) Hi). lia. }
    split; [reflexivity|].
    split; [rewrite <- app_assoc; reflexivity|].
    split; [exact Hcount|].
    split.
    + intros Hfresh. split; [rewrite Hfresh; reflexivity|].
      intros i Hi. rewrite (Hcount i Hi), Hfresh. reflexivity.
    + intros H. apply (f_equal (@length nat)) in H.
      rewrite length_app in H.
      destruct (doubleTRM self); [reflexivity | cbn in H; lia].
Qed.

Lemma doubleTRM_accumulates_witness :
  exists st1 st2,
    detectDoubleTRM segs_double (init cfg0) = (st1, Ok tt) /\
    detectDoubleTRM segs_double st1 = (st2, Ok tt) /\
    doubleTRM st1 = [1%nat] /\ doubleTRM st2 = [1%nat; 1%nat].
Proof.
  destruct (doubleTRM_accumulates (init cfg0) segs_double
              (qs [5; 0; 5; -1]%Z) eq_refl)
    as (_ & st1 & st2 & H1 & H2 & H3 & H4 & _).
  exists st1, st2. repeat split; assumption.
Defined.

(** ** [np.argmax] and [max] *)

Lemma argmax_from_lookup (full : list Q) : forall l best bi k,
  full !! bi = Some best ->
  (forall j, (j < length l)%nat -> full !! (k + j)%nat = l !! j) ->
  full !! argmax_from best bi k l =
  Some (fold_left (fun b y => if Qltb b y then y else b) l best).
Proof.
  induction l as [|x l IH]; intros best bi k Hb Hl; [exact Hb|].
  cbn [argmax_from fold_left].
  assert (Hx : full !! k = Some x).
  { specialize (Hl 0%nat). rewrite Nat.add_0_r in Hl. apply Hl. cbn. lia. }
  assert (Hl' : forall j, (j < length l)%nat -> full !! (S k + j)%nat = l !! j).
  { intros j Hj. specialize (Hl (S j)).
    replace (S k + j)%nat with (k + S j)%nat by lia. apply Hl. cbn. lia. }
  destruct (Qltb best x); apply IH; assumption.
Qed.

(** The item at [np.argmax(l)] is [max(l)]. *)
Lemma argmax_pymax (l : list Q) (i : nat) :
  np_argmax l = Ok i -> exists m, l !! i = Some m /\ pymax l = Ok m.
Proof.
  destruct l as [|x l]; [discriminate|].
  cbn. intros H. inversion H; subst. eexists. split; [|reflexivity].
  apply argmax_from_lookup; [reflexivity|].
  intros j _. reflexivity.
Qed.

Lemma np_argmax_total (l : list Q) : l <> [] -> exists i, np_argmax l = Ok i.
Proof. destruct l; [congruence|]. intros _. eexists. reflexivity. Qed.

(** ** The noise guard *)

Lemma noise_guard_inv self data segs0 segs g i :
  noise_guard self data segs0 = Ok (segs, g, i) ->
  mapR (getGradientFromSegment self) segs = Ok g /\ np_argmax g = Ok i.
Proof.
  unfold noise_guard. intros H.
  destruct (mapR (getGradientFromSegment self) segs0) as [g0|] eqn:Eg;
    [|discriminate].
  cbn [rbind] in H.
  destruct (np_argmax g0) as [i0|] eqn:Ei; [|discriminate].
  cbn [rbind] in H.
  destruct (Nat.eqb i0 0).
  - destruct (getitem segs0 (Z.of_nat i0)) as [seg|]; [|discriminate].
    cbn [rbind] in H.
    destruct (mapR (loc (Depth data)) (point_index seg)) as [tmp|];
      [|discriminate].
    cbn [rbind] in H.
    destruct (getitem tmp (-1)) as [la|]; [|discriminate]. cbn [rbind] in H.
    destruct (getitem tmp 0) as [fi|]; [|discriminate]. cbn [rbind] in H.
    destruct (Qltb (la - fi) 2).
    + destruct (pop0 segs0) as [segs1|]; [|discriminate]. cbn [rbind] in H.
      destruct (mapR (getGradientFromSegment self) segs1) as [g1|] eqn:Eg1;
        [|discriminate].
      cbn [rbind] in H.
      destruct (np_argmax g1) as [i1|] eqn:Ei1; [|discriminate].
      cbn [rbind] in H. inversion H; subst. auto.
    + inversion H; subst. auto.
  - inversion H; subst. auto.
Qed.


(** The guard on a list whose first segment has the maximum gradient. *)
Lemma noise_guard_first self data s0 rest g0 g tmp la fi :
  mapR (getGradientFromSegment self) (s0 :: rest) = Ok (g0 :: g) ->
  np_argmax (g0 :: g) = Ok 0%nat ->
  mapR (loc (Depth data)) (point_index s0) = Ok tmp ->
  getitem tmp (-1) = Ok la ->
  getitem tmp 0 = Ok fi ->
  noise_guard self data (s0 :: rest) =
  if Qltb (la - fi) 2 then
    let? i := np_argmax g in Ok (rest, g, i)
  else Ok (s0 :: rest, g0 :: g, 0%nat).
Proof.
  intros Hg Hi Ht Hla Hfi. unfold noise_guard.
  rewrite Hg. cbn [rbind]. rewrite Hi. cbn [rbind Nat.eqb].
  change (Z.of_nat 0) with 0%Z.
  replace (getitem (s0 :: rest) 0) with (Ok s0) by reflexivity.
  cbn [rbind]. rewrite Ht. cbn [rbind]. rewrite Hla. cbn [rbind].
  rewrite Hfi. cbn [rbind].
  destruct (Qltb (la - fi) 2); [|reflexivity].
  cbn [pop0 rbind].
  cbn [mapR] in Hg.
  destruct (getGradientFromSegment self s0); [|discriminate].
  cbn [rbind] in Hg.
  destruct (mapR (getGradientFromSegment self) rest) as [g'|]; [|discriminate].
  cbn [rbind] in Hg. inversion Hg; subst. reflexivity.
Qed.

(** The guard on a list whose maximum gradient is not in the first
    segment. *)
Lemma noise_guard_not_first self data segs g i :
  mapR (getGradientFromSegment self) segs = Ok g ->
  np_argmax g = Ok i -> i <> 0%nat ->
  noise_guard self data segs = Ok (segs, g, i).
Proof.
  intros Hg Hi Hne. unfold noise_guard. rewrite Hg. cbn [rbind].
  rewrite Hi. cbn [rbind].
  destruct (Nat.eqb_spec i 0); [contradiction | reflexivity].
Qed.

Lemma loc_nat {A} (col : list A) (k : nat) (x : A) :
  col !! k = Some x -> loc col (Z.of_nat k) = Ok x.
Proof.
  intros H. unfold loc.
  pose proof (lookup_lt_Some _ _ _ H) as Hlt.
  destruct (Z.leb_spec 0 (Z.of_nat k)); [|lia].
  destruct (Z.ltb_spec (Z.of_nat k) (Z.of_nat (length col))); [|lia].
  cbn [andb]. rewrite Nat2Z.id, H. reflexivity.
Qed.

Lemma loc_in_range {A} (col : list A) (k : Z) :
  (0 <= k < Z.of_nat (length col))%Z ->
  exists x, col !! Z.to_nat k = Some x /\ loc col k = Ok x.
Proof.
  intros Hk.
  destruct (lookup_lt_is_Some_2 col (Z.to_nat k)) as [x Hx]; [lia|].
  exists x. split; [exact Hx|].
  rewrite <- (Z2Nat.id k) by lia. apply loc_nat, Hx.
Qed.

Section DetectFacts.

Variable bottomUp_fit_predict : Q -> list Q -> result (list Segment).

(** [detect] up to line 139. *)
Lemma detect_unfold data saveModel self segs0 segs g i :
  bottomUp_fit_predict (max_error (config self)) (Temperature data) = Ok segs0 ->
  (2 <= length (Depth data))%nat ->
  noise_guard self data segs0 = Ok (segs, g, i) ->
  detect bottomUp_fit_predict data saveModel self =
  detect_finish data saveModel segs g i self.
Proof.
  intros Hfit Hlen Hguard.
  destruct (loc_in_range (Depth data) 1) as (d1 & _ & Hd1); [lia|].
  destruct (loc_in_range (Depth data) 0) as (d0 & _ & Hd0); [lia|].
  unfold detect, mbind, gets, lift, id.
  rewrite Hfit, Hd1, Hd0. cbn [rbind]. rewrite Hguard. reflexivity.
Qed.

(** C6, as the code has it.  When the first segment has the maximum
    gradient and spans less than 2 depth units, and other segments remain,
    the guard discards it, recomputes the gradients and the index of the
    maximum over the remaining segments, and [detect] goes on from these.
    The guard runs once and removes one segment: applied again to the
    reduced list it leaves the list as it is when the new maximum is not
    in the new first segment, or when that segment spans 2 depth units or
    more. *)
Theorem noise_guard_once data saveModel self s0 rest g0 g tmp la fi :
  bottomUp_fit_predict (max_error (config self)) (Temperature data)
    = Ok (s0 :: rest) ->
  (2 <= length (Depth data))%nat ->
  mapR (getGradientFromSegment self) (s0 :: rest) = Ok (g0 :: g) ->
  np_argmax (g0 :: g) = Ok 0%nat ->
  mapR (loc (Depth data)) (point_index s0) = Ok tmp ->
  getitem tmp (-1) = Ok la ->
  getitem tmp 0 = Ok fi ->
  la - fi < 2 ->
  rest <> [] ->
  exists i,
    np_argmax g = Ok i /\
    noise_guard self data (s0 :: rest) = Ok (rest, g, i) /\
    detect bottomUp_fit_predict data saveModel self =
      detect_finish data saveModel rest g i self /\
    (i <> 0%nat -> noise_guard self data rest = Ok (rest, g, i)) /\
    (forall s1 tmp1 la1 fi1,
       rest !! 0%nat = Some s1 ->
       mapR (loc (Depth data)) (point_index s1) = Ok tmp1 ->
       getitem tmp1 (-1) = Ok la1 ->
       getitem tmp1 0 = Ok fi1 ->
       2 <= la1 - fi1 ->
       noise_guard self data rest = Ok (rest, g, i)).
Proof.
  intros Hfit Hlen Hg Hi Ht Hla Hfi Hspan Hrest.
  assert (Hg' : mapR (getGradientFromSegment self) rest = Ok g).
  { cbn [mapR] in Hg.
    destruct (getGradientFromSegment self s0); [|discriminate].
    cbn [rbind] in Hg.
    destruct (mapR (getGradientFromSegment self) rest); [|discriminate].
    cbn [rbind] in Hg. inversion Hg; subst. reflexivity. }
  assert (Hne : g <> []).
  { intros ->. apply mapR_length in Hg'. destruct rest; [congruence|].
    discriminate. }
  destruct (np_argmax_total g Hne) as [i Hi'].
  assert (Hguard : noise_guard self data (s0 :: rest) = Ok (rest, g, i)).
  { rewrite (noise_guard_first _ _ _ _ _ _ _ _ _ Hg Hi Ht Hla Hfi).
    apply Qltb_lt in Hspan. rewrite Hspan, Hi'. reflexivity. }
  exists i. split; [exact Hi'|]. split; [exact Hguard|].
  split; [apply (detect_unfold _ _ _ _ _ _ _ Hfit Hlen Hguard)|].
  split.
  - intros Hnz. apply noise_guard_not_first; assumption.
  - intros s1 tmp1 la1 fi1 Hs1 Ht1 Hla1 Hfi1 Hspan1.
    destruct (Nat.eq_dec i 0%nat) as [->|Hnz];
      [|apply noise_guard_not_first; assumption].
    destruct rest as [|s1' rest']; [discriminate|].
    cbn in Hs1. inversion Hs1; subst s1'.
    destruct g as [|g1 g']; [congruence|].
    rewrite (noise_guard_first _ _ _ _ _ _ _ _ _ Hg' Hi' Ht1 Hla1 Hfi1).
    apply Qltb_ge in Hspan1. rewrite Hspan1. reflexivity.
Qed.

End DetectFacts.

Lemma noise_guard_once_witness :
  exists i,
    np_argmax (qs [5; 0]%Z) = Ok i /\
    noise_guard (init cfg0) data0 segs_noise =
      Ok (List.tl segs_noise, qs [5; 0]%Z, i).
Proof.
  destruct (noise_guard_once (fun _ _ => Ok segs_noise) data0 true (init cfg0)
              {| fitted_line := qs [20; 10]%Z; point_index := [0; 1]%Z |}
              (List.tl segs_noise) 10 (qs [5; 0]%Z) (qs [0; 1]%Z) 1 0
              eq_refl ltac:(cbn; lia) eq_refl eq_refl eq_refl eq_refl eq_refl
              eq_refl ltac:(discriminate))
    as (i & Hi & Hguard & _).
  exists i. split; assumption.
Defined.

(** C6, the claim as stated, fails: the guard applied to the list it has
    reduced can remove a segment again.  With gradients [10; 5; 0] and
    two leading segments one depth unit long, the first application
    leaves two segments and the second leaves one. *)
Lemma noise_guard_not_idempotent :
  exists reduced g1 i1 again g2 i2,
    noise_guard (init cfg0) data0 segs_noise = Ok (reduced, g1, i1) /\
    noise_guard (init cfg0) data0 reduced = Ok (again, g2, i2) /\
    length reduced = 2%nat /\ length again = 1%nat /\
    again <> reduced.
Proof.
  exists (List.tl segs_noise), (qs [5; 0]%Z), 0%nat.
  exists (List.tl (List.tl segs_noise)), (qs [0]%Z), 0%nat.
  split; [reflexivity|]. split; [reflexivity|].
  split; [reflexivity|]. split; [reflexivity|].
  discriminate.
Qed.

(** ** [detect] from line 141 on *)

(** Case analysis on the innermost scrutinee of the goal. *)
Ltac destruct_inner :=
  match goal with
  | |- context [match ?x with _ => _ end] =>
      lazymatch x with
      | context [match _ with _ => _ end] => fail
      | _ => destruct x
      end
  end.

Lemma getGradient_depthInterval a b segs :
  depthInterval a = depthInterval b ->
  mapR (getGradientFromSegment a) segs = mapR (getGradientFromSegment b) segs.
Proof. intros H. unfold getGradientFromSegment. rewrite H. reflexivity. Qed.

(** The boundary rules assign [TRM], [LEP] and [UHY] and nothing else. *)
Lemma detect_boundaries_frame data segs g i s :
  let s' := fst (detect_boundaries data segs g i s) in
  config s' = config s /\ depthInterval s' = depthInterval s /\
  doubleTRM s' = doubleTRM s /\ positiveSeg s' = positiveSeg s /\
  gradient s' = gradient s.
Proof.
  unfold detect_boundaries, mbind, lift, modify, gets, mret, id.
  repeat (cbn; destruct_inner); cbn; auto 10.
Qed.

Lemma detect_finish_cases data saveModel segs g i gm self :
  mapR (getGradientFromSegment self) segs = Ok g ->
  g !! i = Some gm ->
  pymax g = Ok gm ->
  detect_finish data saveModel segs g i self =
  let self1 := set_gradient g self in
  let sr := if Qltb (minTRM_gradient (config self)) gm
            then detect_boundaries data segs g i self1
            else (self1, Ok tt) in
  match snd sr with
  | Ok _ => (finalize saveModel segs g i gm (fst sr), Ok tt)
  | Raise e => (fst sr, Raise e)
  end.
Proof.
  intros Hg Hi Hmax.
  assert (Htail : forall s2, depthInterval s2 = depthInterval self ->
    (do m <- lift (pymax g);
     run modify (set_TRM_gradient (Some m));
     run modify (set_num_segments (Some (length segs)));
     run modify (set_TRM_idx (Some i));
     run detectDoubleTRM segs;
     run detectPositiveGradient segs;
     if saveModel then modify (set_model (Some segs)) else mret tt) s2 =
    (finalize saveModel segs g i gm s2, Ok tt)).
  { intros s2 Hd.
    assert (Hg2 : mapR (getGradientFromSegment s2) segs = Ok g).
    { rewrite (getGradient_depthInterval s2 self segs Hd). exact Hg. }
    unfold mbind at 1. unfold lift at 1. rewrite Hmax.
    unfold mbind at 1. unfold modify at 1.
    unfold mbind at 1. unfold modify at 1.
    unfold mbind at 1. unfold modify at 1.
    unfold mbind at 1.
    rewrite (detectDoubleTRM_appends _ segs g) by exact Hg2.
    unfold mbind at 1.
    rewrite (detectPositiveGradient_replaces _ segs g) by exact Hg2.
    unfold finalize. destruct saveModel; reflexivity. }
  unfold detect_finish. unfold mbind at 1. unfold modify at 1.
  unfold mbind at 1. unfold gets at 1. unfold id.
  unfold mbind at 1. unfold lift at 1.
  rewrite (getitem_nat _ _ _ Hi).
  unfold mbind at 1. cbn [config set_gradient]. cbv zeta.
  destruct (Qltb (minTRM_gradient (config self)) gm).
  - pose proof (detect_boundaries_frame data segs g i (set_gradient g self))
      as (_ & Hd & _).
    destruct (detect_boundaries data segs g i (set_gradient g self))
      as [s2 [[]|e]]; cbn [fst snd] in *; [|reflexivity].
    apply Htail. exact Hd.
  - unfold mret at 1. cbn [fst snd]. apply Htail. reflexivity.
Qed.

Section DetectTheorems.

Variable bottomUp_fit_predict : Q -> list Q -> result (list Segment).

(** [detect] on a profile of two samples or more, for which the fit and
    the noise guard return. *)
Lemma detect_cases data saveModel self segs0 segs g i gm :
  bottomUp_fit_predict (max_error (config self)) (Temperature data) = Ok segs0 ->
  (2 <= length (Depth data))%nat ->
  noise_guard self data segs0 = Ok (segs, g, i) ->
  pymax g = Ok gm ->
  g !! i = Some gm /\
  detect bottomUp_fit_predict data saveModel self =
  let self1 := set_gradient g self in
  let sr := if Qltb (minTRM_gradient (config self)) gm
            then detect_boundaries data segs g i self1
            else (self1, Ok tt) in
  match snd sr with
  | Ok _ => (finalize saveModel segs g i gm (fst sr), Ok tt)
  | Raise e => (fst sr, Raise e)
  end.
Proof.
  intros Hfit Hlen Hguard Hmax.
  destruct (noise_guard_inv _ _ _ _ _ _ Hguard) as [Hg Hi].
  destruct (argmax_pymax _ _ Hi) as (m & Hm & Hmax').
  rewrite Hmax in Hmax'. inversion Hmax'; subst m.
  split; [exact Hm|].
  rewrite (detect_unfold _ _ _ _ _ _ _ _ Hfit Hlen Hguard).
  apply detect_finish_cases; assumption.
Qed.

(** C3. For a freshly constructed detector, a profile of two samples or
    more and a segment list (as the noise guard leaves it) whose maximum
    gradient is at most [minTRM_gradient], [detect] returns without an
    exception, [TRM], [LEP] and [UHY] are [None], and the diagnostics are
    recorded: the maximum gradient, the number of segments, the index of
    the max-gradient segment, and the two lists of flagged segments. *)
Theorem gate_closed_no_boundaries data saveModel cfg segs0 segs g i gm :
  bottomUp_fit_predict (max_error cfg) (Temperature data) = Ok segs0 ->
  (2 <= length (Depth data))%nat ->
  noise_guard (init cfg) data segs0 = Ok (segs, g, i) ->
  pymax g = Ok gm ->
  gm <= minTRM_gradient cfg ->
  exists st,
    detect bottomUp_fit_predict data saveModel (init cfg) = (st, Ok tt) /\
    TRM st = None /\ LEP st = None /\ UHY st = None /\
    TRM_gradient st = Some gm /\
    num_segments st = Some (length segs) /\
    TRM_idx st = Some i /\ g !! i = Some gm /\
    doubleTRM st = double_flagged cfg g /\
    positiveSeg st = positive_flagged cfg g /\
    gradient st = g.
Proof.
  intros Hfit Hlen Hguard Hmax Hgate.
  destruct (detect_cases data saveModel (init cfg) _ _ _ _ _
              Hfit Hlen Hguard Hmax) as [Hi Hdet].
  apply Qltb_ge in Hgate. cbn [config init] in Hdet.
  rewrite Hgate in Hdet. cbn [fst snd] in Hdet.
  eexists. split; [exact Hdet|].
  destruct saveModel; cbn; auto 12.
Qed.

End DetectTheorems.

Lemma gate_closed_no_boundaries_witness :
  exists st,
    detect (fun _ _ => Ok segs_flat) data0 true (init cfg0) = (st, Ok tt) /\
    TRM st = None /\ LEP st = None /\ UHY st = None /\
    TRM_gradient st = Some 0 /\ num_segments st = Some 2%nat.
Proof.
  destruct (gate_closed_no_boundaries (fun _ _ => Ok segs_flat) data0 true cfg0
              segs_flat segs_flat (qs [0; 0]%Z) 0%nat 0
              eq_refl ltac:(cbn; lia) eq_refl eq_refl ltac:(discriminate))
    as (st & H & H1 & H2 & H3 & H4 & H5 & _).
  exists st. auto 10.
Defined.

(** ** The midpoint index *)

Lemma sum_bounds (n : Z) (l : list Z) :
  Forall (fun k => 0 <= k < n)%Z l ->
  (0 <= fold_right Z.add 0 l <= (n - 1) * Z.of_nat (length l))%Z.
Proof.
  induction 1 as [|k l Hk _ IH]; cbn [fold_right length]; [lia|].
  rewrite Nat2Z.inj_succ. nia.
Qed.

Lemma int_mean_in_range (n : Z) (l : list Z) :
  l <> [] -> Forall (fun k => 0 <= k < n)%Z l ->
  exists m, int_mean l = Ok m /\ (0 <= m < n)%Z.
Proof.
  intros Hne Hl. pose proof (sum_bounds n l Hl) as Hs.
  destruct l as [|k l]; [congruence|].
  eexists. split; [reflexivity|].
  set (s := fold_right Z.add 0%Z (k :: l)) in *.
  set (len := Z.of_nat (length (k :: l))) in *.
  assert (Hlen : (0 < len)%Z) by (subst len; cbn [length]; lia).
  split.
  - apply Z.quot_pos; lia.
  - apply Z.quot_lt_upper_bound; nia.
Qed.

Lemma sum_seq (n : nat) : forall a : nat,
  (2 * fold_right Z.add 0 (map Z.of_nat (seq a n)) =
   Z.of_nat n * (2 * Z.of_nat a + Z.of_nat n - 1))%Z.
Proof.
  induction n as [|n IH]; intros a; [reflexivity|].
  cbn [seq map fold_right]. specialize (IH (S a)). lia.
Qed.

(** The truncated mean of the index range [i0 .. i1] is
    [floor((i0 + i1) / 2)]. *)
Lemma int_mean_range (i0 i1 : nat) :
  (i0 <= i1)%nat ->
  int_mean (map Z.of_nat (seq i0 (S (i1 - i0)))) =
  Ok (Z.of_nat ((i0 + i1) / 2)).
Proof.
  intros Hle. cbn [seq map int_mean]. f_equal.
  change (Z.of_nat i0 :: map Z.of_nat (seq (S i0) (i1 - i0)))
    with (map Z.of_nat (seq i0 (S (i1 - i0)))).
  rewrite length_map, length_seq.
  pose proof (sum_seq (S (i1 - i0)) i0) as Hs.
  set (s := fold_right Z.add 0%Z (map Z.of_nat (seq i0 (S (i1 - i0))))) in *.
  set (n := Z.of_nat (S (i1 - i0))) in *.
  assert (Hn : (0 < n)%Z) by (subst n; lia).
  assert (Ht : (2 * Z.of_nat i0 + n - 1 = Z.of_nat (i0 + i1))%Z)
    by (subst n; lia).
  rewrite Ht in Hs.
  assert (Hs0 : (0 <= s)%Z) by nia.
  rewrite Z.quot_div_nonneg by lia.
  rewrite Nat2Z.inj_div. change (Z.of_nat 2) with 2%Z.
  set (t := Z.of_nat (i0 + i1)) in *.
  pose proof (Z.div_mod t 2 ltac:(lia)) as Hdm.
  pose proof (Z.mod_pos_bound t 2 ltac:(lia)) as Hmb.
  symmetry. apply (Z.div_unique_pos s n (t / 2) (s - n * (t / 2))); nia.
Qed.

(** ** The boundary rules *)

Lemma getitem_last {A} (l : list A) (x : A) :
  last l = Some x -> getitem l (-1) = Ok x.
Proof.
  intros H. rewrite last_lookup in H.
  pose proof (lookup_lt_Some _ _ _ H) as Hlt.
  destruct l as [|a l']; [cbn in Hlt; lia|].
  apply (getitem_neg (a :: l') 1); [cbn [length]; lia|].
  replace (length (a :: l') - 1)%nat with (pred (length (a :: l')))
    by (cbn [length]; lia).
  exact H.
Qed.

Lemma getitem_0 {A} (l : list A) (x : A) :
  l !! 0%nat = Some x -> getitem l 0 = Ok x.
Proof. exact (getitem_nat l 0 x). Qed.

Lemma getitem_1 {A} (l : list A) (x : A) :
  l !! 1%nat = Some x -> getitem l 1 = Ok x.
Proof. exact (getitem_nat l 1 x). Qed.

Lemma getitem_neg2 {A} (l : list A) (x : A) :
  (2 <= length l)%nat ->
  l !! (length l - 2)%nat = Some x -> getitem l (-2) = Ok x.
Proof. intros Hlen H. apply (getitem_neg l 2); [lia | exact H]. Qed.

Lemma getitem_head {A} (l : list A) (x : A) :
  head l = Some x -> getitem l 0 = Ok x.
Proof. intros H. rewrite head_lookup in H. apply getitem_0, H. Qed.

Lemma LEP_index_of_first self segs g s0 k0 :
  segs !! 0%nat = Some s0 -> last (point_index s0) = Some k0 ->
  LEP_index_of self segs g 0 = Ok None.
Proof.
  intros Hs0 Hk0. unfold LEP_index_of.
  rewrite (getitem_0 segs _ Hs0). cbn [rbind].
  rewrite (getitem_last _ _ Hk0). reflexivity.
Qed.

Lemma LEP_index_of_later self segs g i s0 s1 k0 k1 g0 g1 :
  i <> 0%nat ->
  segs !! 0%nat = Some s0 -> last (point_index s0) = Some k0 ->
  segs !! 1%nat = Some s1 -> last (point_index s1) = Some k1 ->
  g !! 0%nat = Some g0 -> g !! 1%nat = Some g1 ->
  LEP_index_of self segs g i =
  Ok (if Qltb (Qabs g1) (stable_gradient (config self)) then Some k1
      else if Qltb (stable_gradient2 (config self)) (Qabs g0) then None
           else Some k0).
Proof.
  intros Hi Hs0 Hk0 Hs1 Hk1 Hg0 Hg1. unfold LEP_index_of.
  rewrite (getitem_0 segs _ Hs0). cbn [rbind].
  rewrite (getitem_last _ _ Hk0). cbn [rbind].
  destruct (Nat.eqb_spec i 0); [contradiction|].
  rewrite (getitem_1 g _ Hg1). cbn [rbind].
  destruct (Qltb (Qabs g1) (stable_gradient (config self))).
  - rewrite (getitem_1 segs _ Hs1). cbn [rbind].
    rewrite (getitem_last _ _ Hk1). reflexivity.
  - rewrite (getitem_0 g _ Hg0). cbn [rbind].
    destruct (Qltb (stable_gradient2 (config self)) (Qabs g0)); reflexivity.
Qed.

Lemma UHY_index_of_last self segs g i sl kl :
  S i = length g ->
  last segs = Some sl -> head (point_index sl) = Some kl ->
  UHY_index_of self segs g i = Ok None.
Proof.
  intros Hi Hsl Hkl. unfold UHY_index_of.
  rewrite (getitem_last _ _ Hsl). cbn [rbind].
  rewrite (getitem_head _ _ Hkl). cbn [rbind].
  destruct (Z.eqb_spec (Z.of_nat i) (Z.of_nat (length g) - 1)); [reflexivity|lia].
Qed.

Lemma UHY_index_of_earlier self segs g i sp sl kp kl gp gl :
  (S i < length g)%nat -> length segs = length g ->
  segs !! (length segs - 2)%nat = Some sp -> head (point_index sp) = Some kp ->
  last segs = Some sl -> head (point_index sl) = Some kl ->
  g !! (length g - 2)%nat = Some gp -> last g = Some gl ->
  UHY_index_of self segs g i =
  Ok (if Qltb (Qabs gp) (stable_gradient (config self)) then Some kp
      else if Qltb (stable_gradient2 (config self)) (Qabs gl) then None
           else Some kl).
Proof.
  intros Hi Hlen Hsp Hkp Hsl Hkl Hgp Hgl. unfold UHY_index_of.
  rewrite (getitem_last _ _ Hsl). cbn [rbind].
  rewrite (getitem_head _ _ Hkl). cbn [rbind].
  destruct (Z.eqb_spec (Z.of_nat i) (Z.of_nat (length g) - 1)); [lia|].
  rewrite (getitem_neg2 g gp) by (try exact Hgp; lia). cbn [rbind].
  destruct (Qltb (Qabs gp) (stable_gradient (config self))).
  - rewrite (getitem_neg2 segs sp) by (try exact Hsp; lia). cbn [rbind].
    rewrite (getitem_head _ _ Hkp). reflexivity.
  - rewrite (getitem_last _ _ Hgl). cbn [rbind].
    destruct (Qltb (stable_gradient2 (config self)) (Qabs gl)); reflexivity.
Qed.

(** The branch of the open gate, when its reads succeed: the three
    attributes it assigns. *)
Lemma detect_boundaries_ok data segs g i s seg mid d li ui :
  segs !! i = Some seg ->
  int_mean (point_index seg) = Ok mid ->
  loc (Depth data) mid = Ok d ->
  LEP_index_of s segs g i = Ok li ->
  UHY_index_of s segs g i = Ok ui ->
  in_profile data li -> in_profile data ui ->
  exists s',
    detect_boundaries data segs g i s = (s', Ok tt) /\
    TRM s' = Some d /\
    LEP s' = match li with Some _ => depth_of data li | None => LEP s end /\
    UHY s' = match ui with Some _ => depth_of data ui | None => UHY s end.
Proof.
  intros Hseg Hmid Hd Hli Hui Hlr Hur.
  unfold detect_boundaries, mbind, lift, modify, gets, mret, id.
  rewrite (getitem_nat _ _ _ Hseg), Hmid, Hd.
  change (LEP_index_of (set_TRM (Some d) s) segs g i)
    with (LEP_index_of s segs g i).
  change (UHY_index_of (set_TRM (Some d) s) segs g i)
    with (UHY_index_of s segs g i).
  rewrite Hli, Hui.
  destruct li as [kl|], ui as [ku|]; cbn [in_profile depth_of] in *.
  - destruct (loc_in_range _ _ Hlr) as (dl & Hdl & Hloc).
    destruct (loc_in_range _ _ Hur) as (du & Hdu & Hloc').
    rewrite Hloc, Hloc'. eexists. split; [reflexivity|].
    cbn. rewrite Hdl, Hdu. auto.
  - destruct (loc_in_range _ _ Hlr) as (dl & Hdl & Hloc).
    rewrite Hloc. eexists. split; [reflexivity|].
    cbn. rewrite Hdl. auto.
  - destruct (loc_in_range _ _ Hur) as (du & Hdu & Hloc').
    rewrite Hloc'. eexists. split; [reflexivity|].
    cbn. rewrite Hdu. auto.
  - eexists. split; [reflexivity|]. cbn. auto.
Qed.

(** [TRM] is assigned first: it is in the state the branch leaves,
    whether or not a later read raises. *)
Lemma detect_boundaries_TRM data segs g i s seg mid d :
  segs !! i = Some seg ->
  int_mean (point_index seg) = Ok mid ->
  loc (Depth data) mid = Ok d ->
  TRM (fst (detect_boundaries data segs g i s)) = Some d.
Proof.
  intros Hseg Hmid Hd.
  unfold detect_boundaries, mbind, lift, modify, gets, mret, id.
  rewrite (getitem_nat _ _ _ Hseg), Hmid, Hd.
  repeat (cbn; destruct_inner); reflexivity.
Qed.

Lemma wf_segment_last data seg :
  wf_segment data seg ->
  exists k, last (point_index seg) = Some k /\ in_profile data (Some k).
Proof.
  intros [Hne Hall].
  destruct (last (point_index seg)) as [k|] eqn:E.
  - exists k. split; [reflexivity|]. cbn.
    rewrite last_lookup in E.
    apply (proj1 (Forall_lookup _ _) Hall _ _ E).
  - apply last_None in E. contradiction.
Qed.

Lemma wf_segment_head data seg :
  wf_segment data seg ->
  exists k, head (point_index seg) = Some k /\ in_profile data (Some k).
Proof.
  intros [Hne Hall].
  destruct (point_index seg) as [|k l]; [congruence|].
  exists k. split; [reflexivity|]. cbn. inversion Hall; subst. assumption.
Qed.

Lemma wf_segment_mean data seg :
  wf_segment data seg ->
  exists mid d, int_mean (point_index seg) = Ok mid /\
                Depth data !! Z.to_nat mid = Some d /\
                loc (Depth data) mid = Ok d.
Proof.
  intros [Hne Hall].
  destruct (int_mean_in_range _ _ Hne Hall) as (mid & Hmid & Hr).
  destruct (loc_in_range (Depth data) mid Hr) as (d & Hd & Hloc).
  exists mid, d. auto.
Qed.

Lemma LEP_index_of_wf data self segs g i :
  Forall (wf_segment data) segs -> length segs = length g ->
  (i < length g)%nat ->
  exists li, LEP_index_of self segs g i = Ok li /\ in_profile data li.
Proof.
  intros Hwf Hlen Hi.
  destruct (lookup_lt_is_Some_2 segs 0) as [s0 Hs0]; [lia|].
  destruct (wf_segment_last data s0) as (k0 & Hk0 & Hr0).
  { apply (proj1 (Forall_lookup _ _) Hwf _ _ Hs0). }
  destruct (Nat.eq_dec i 0%nat) as [->|Hnz].
  - exists None. split; [|exact I].
    apply (LEP_index_of_first _ _ _ _ _ Hs0 Hk0).
  - destruct (lookup_lt_is_Some_2 segs 1) as [s1 Hs1]; [lia|].
    destruct (wf_segment_last data s1) as (k1 & Hk1 & Hr1).
    { apply (proj1 (Forall_lookup _ _) Hwf _ _ Hs1). }
    destruct (lookup_lt_is_Some_2 g 0) as [g0 Hg0]; [lia|].
    destruct (lookup_lt_is_Some_2 g 1) as [g1 Hg1]; [lia|].
    eexists. split.
    + apply (LEP_index_of_later _ _ _ _ _ _ _ _ _ _ Hnz Hs0 Hk0 Hs1 Hk1 Hg0 Hg1).
    + destruct (Qltb (Qabs g1) _); [exact Hr1|].
      destruct (Qltb _ (Qabs g0)); [exact I | exact Hr0].
Qed.

Lemma last_is_Some {A} (l : list A) :
  (0 < length l)%nat -> exists x, last l = Some x.
Proof.
  intros H. destruct (last l) eqn:E; [eauto|].
  apply last_None in E. subst. cbn in H. lia.
Qed.

Lemma UHY_index_of_wf data self segs g i :
  Forall (wf_segment data) segs -> length segs = length g ->
  (i < length g)%nat ->
  exists ui, UHY_index_of self segs g i = Ok ui /\ in_profile data ui.
Proof.
  intros Hwf Hlen Hi.
  destruct (last_is_Some segs) as [sl Hsl]; [lia|].
  assert (Hwl : wf_segment data sl).
  { rewrite last_lookup in Hsl. apply (proj1 (Forall_lookup _ _) Hwf _ _ Hsl). }
  destruct (wf_segment_head data sl Hwl) as (kl & Hkl & Hrl).
  destruct (Nat.eq_dec (S i) (length g)) as [Hlast|Hnl].
  - exists None. split; [|exact I].
    apply (UHY_index_of_last _ _ _ _ _ _ Hlast Hsl Hkl).
  - destruct (lookup_lt_is_Some_2 segs (length segs - 2)) as [sp Hsp]; [lia|].
    destruct (wf_segment_head data sp) as (kp & Hkp & Hrp).
    { apply (proj1 (Forall_lookup _ _) Hwf _ _ Hsp). }
    destruct (lookup_lt_is_Some_2 g (length g - 2)) as [gp Hgp]; [lia|].
    destruct (last_is_Some g) as [gl Hgl]; [lia|].
    assert (Hlt : (S i < length g)%nat) by lia.
    eexists. split.
    + apply (UHY_index_of_earlier _ _ _ _ _ _ _ _ _ _
               Hlt Hlen Hsp Hkp Hsl Hkl Hgp Hgl).
    + destruct (Qltb (Qabs gp) _); [exact Hrp|].
      destruct (Qltb _ (Qabs gl)); [exact I | exact Hrl].
Qed.

Section OpenGate.

Variable bottomUp_fit_predict : Q -> list Q -> result (list Segment).

(** [detect] on a fresh detector when the maximum gradient is above
    [minTRM_gradient] and every segment is well formed: it returns, and
    the three boundaries are the depths of the indices the rules choose. *)
Lemma detect_open_gate data saveModel cfg segs0 segs g i gm :
  bottomUp_fit_predict (max_error cfg) (Temperature data) = Ok segs0 ->
  (2 <= length (Depth data))%nat ->
  noise_guard (init cfg) data segs0 = Ok (segs, g, i) ->
  pymax g = Ok gm ->
  minTRM_gradient cfg < gm ->
  Forall (wf_segment data) segs ->
  exists st seg mid li ui,
    detect bottomUp_fit_predict data saveModel (init cfg) = (st, Ok tt) /\
    segs !! i = Some seg /\
    int_mean (point_index seg) = Ok mid /\
    TRM st = Depth data !! Z.to_nat mid /\ is_Some (TRM st) /\
    LEP_index_of (init cfg) segs g i = Ok li /\
    UHY_index_of (init cfg) segs g i = Ok ui /\
    in_profile data li /\ in_profile data ui /\
    LEP st = depth_of data li /\
    UHY st = depth_of data ui.
Proof.
  intros Hfit Hlen Hguard Hmax Hgate Hwf.
  destruct (detect_cases _ data saveModel (init cfg) _ _ _ _ _
              Hfit Hlen Hguard Hmax) as [Hi Hdet].
  destruct (noise_guard_inv _ _ _ _ _ _ Hguard) as [Hg _].
  pose proof (mapR_length _ _ _ Hg) as Hlg.
  pose proof (lookup_lt_Some _ _ _ Hi) as Hilt.
  destruct (lookup_lt_is_Some_2 segs i) as [seg Hseg]; [lia|].
  destruct (wf_segment_mean data seg) as (mid & d & Hmid & Hd & Hloc).
  { apply (proj1 (Forall_lookup _ _) Hwf _ _ Hseg). }
  symmetry in Hlg.
  destruct (LEP_index_of_wf data (init cfg) segs g i Hwf Hlg Hilt)
    as (li & Hli & Hlr).
  destruct (UHY_index_of_wf data (init cfg) segs g i Hwf Hlg Hilt)
    as (ui & Hui & Hur).
  destruct (detect_boundaries_ok data segs g i (set_gradient g (init cfg))
              seg mid d li ui Hseg Hmid Hloc Hli Hui Hlr Hur)
    as (s' & Hb & HT & HL & HU).
  apply Qltb_lt in Hgate. cbn [config init] in Hdet.
  rewrite Hgate in Hdet. cbv zeta in Hdet. rewrite Hb in Hdet.
  cbn [fst snd] in Hdet.
  exists (finalize saveModel segs g i gm s'), seg, mid, li, ui.
  split; [exact Hdet|]. split; [exact Hseg|]. split; [exact Hmid|].
  assert (HT' : TRM (finalize saveModel segs g i gm s') = Some d)
    by (destruct saveModel; exact HT).
  split; [rewrite HT', Hd; reflexivity|].
  split; [rewrite HT'; eauto|].
  split; [exact Hli|]. split; [exact Hui|].
  split; [exact Hlr|]. split; [exact Hur|].
  split.
  - transitivity (LEP s'); [destruct saveModel; reflexivity|].
    rewrite HL. destruct li; reflexivity.
  - transitivity (UHY s'); [destruct saveModel; reflexivity|].
    rewrite HU. destruct ui; reflexivity.
Qed.

End OpenGate.

Lemma in_profile_depth data k :
  in_profile data (Some k) -> is_Some (Depth data !! Z.to_nat k).
Proof. cbn. intros H. apply lookup_lt_is_Some_2. lia. Qed.

Lemma Qltb_false_not (x y : Q) : ~ x < y -> Qltb x y = false.
Proof. intros H. apply Qltb_ge. apply Qnot_lt_le, H. Qed.

(** Well-formedness of a concrete segment list. *)
Ltac wf_segments :=
  repeat first
    [ apply Forall_nil_2
    | apply Forall_cons_2
    | split
    | discriminate
    | (cbn; lia) ].

Section BoundaryTheorems.

Variable bottomUp_fit_predict : Q -> list Q -> result (list Segment).

(** C2, as the code has it.  When the maximum gradient exceeds
    [minTRM_gradient] and the max-gradient segment has the index range
    [i0 .. i1], [detect] (on a fresh detector, a profile of two samples or
    more and well-formed segments) returns with [TRM] the profile's depth
    at index [floor((i0 + i1) / 2)]: the midpoint is truncated by [int],
    not rounded. *)
Theorem TRM_at_truncated_midpoint data saveModel cfg segs0 segs g i gm seg i0 i1 :
  bottomUp_fit_predict (max_error cfg) (Temperature data) = Ok segs0 ->
  (2 <= length (Depth data))%nat ->
  noise_guard (init cfg) data segs0 = Ok (segs, g, i) ->
  pymax g = Ok gm ->
  minTRM_gradient cfg < gm ->
  Forall (wf_segment data) segs ->
  segs !! i = Some seg ->
  (i0 <= i1)%nat ->
  point_index seg = map Z.of_nat (seq i0 (S (i1 - i0))) ->
  exists st d,
    detect bottomUp_fit_predict data saveModel (init cfg) = (st, Ok tt) /\
    Depth data !! ((i0 + i1) / 2)%nat = Some d /\
    TRM st = Some d.
Proof.
  intros Hfit Hlen Hguard Hmax Hgate Hwf Hseg Hle Hrange.
  destruct (detect_open_gate _ data saveModel cfg _ _ _ _ _
              Hfit Hlen Hguard Hmax Hgate Hwf)
    as (st & seg' & mid & li & ui & Hdet & Hseg' & Hmid & HT & [d Hd] & _).
  rewrite Hseg in Hseg'. inversion Hseg'; subst seg'.
  rewrite Hrange, (int_mean_range _ _ Hle) in Hmid.
  assert (Hm : mid = Z.of_nat ((i0 + i1) / 2)) by congruence.
  rewrite Hm, Nat2Z.id in HT.
  exists st, d. split; [exact Hdet|]. split; [|exact Hd].
  rewrite <- HT. exact Hd.
Qed.

(** C4. When the maximum gradient exceeds [minTRM_gradient], [detect]
    (on a fresh detector, a profile of two samples or more and well-formed
    segments) returns with [LEP] chosen as follows.  If the max-gradient
    segment is the first one, [LEP] is [None].  Otherwise, if
    [|gradient[1]| < stable_gradient], [LEP] is the depth at the last
    index of segment 1; else if [|gradient[0]| > stable_gradient2], [LEP]
    is [None]; else [LEP] is the depth at the last index of segment 0. *)
Theorem LEP_rule data saveModel cfg segs0 segs g i gm :
  bottomUp_fit_predict (max_error cfg) (Temperature data) = Ok segs0 ->
  (2 <= length (Depth data))%nat ->
  noise_guard (init cfg) data segs0 = Ok (segs, g, i) ->
  pymax g = Ok gm ->
  minTRM_gradient cfg < gm ->
  Forall (wf_segment data) segs ->
  exists st,
    detect bottomUp_fit_predict data saveModel (init cfg) = (st, Ok tt) /\
    (i = 0%nat -> LEP st = None) /\
    (i <> 0%nat ->
     exists g0 g1 s0 s1 k0 k1,
       g !! 0%nat = Some g0 /\ g !! 1%nat = Some g1 /\
       segs !! 0%nat = Some s0 /\ segs !! 1%nat = Some s1 /\
       last (point_index s0) = Some k0 /\
       last (point_index s1) = Some k1 /\
       (Qabs g1 < stable_gradient cfg ->
        LEP st = Depth data !! Z.to_nat k1 /\ is_Some (LEP st)) /\
       (~ Qabs g1 < stable_gradient cfg ->
        stable_gradient2 cfg < Qabs g0 -> LEP st = None) /\
       (~ Qabs g1 < stable_gradient cfg ->
        ~ stable_gradient2 cfg < Qabs g0 ->
        LEP st = Depth data !! Z.to_nat k0 /\ is_Some (LEP st))).
Proof.
  intros Hfit Hlen Hguard Hmax Hgate Hwf.
  destruct (detect_open_gate _ data saveModel cfg _ _ _ _ _
              Hfit Hlen Hguard Hmax Hgate Hwf)
    as (st & seg & mid & li & ui & Hdet & Hseg & _ & _ & _ & Hli & _ & _ & _
        & HL & _).
  destruct (noise_guard_inv _ _ _ _ _ _ Hguard) as [Hg _].
  pose proof (mapR_length _ _ _ Hg) as Hlg.
  pose proof (lookup_lt_Some _ _ _ Hseg) as Hilt.
  destruct (lookup_lt_is_Some_2 segs 0) as [s0 Hs0]; [lia|].
  destruct (wf_segment_last data s0) as (k0 & Hk0 & Hr0).
  { apply (proj1 (Forall_lookup _ _) Hwf _ _ Hs0). }
  exists st. split; [exact Hdet|]. split.
  - intros ->.
    rewrite (LEP_index_of_first _ _ _ _ _ Hs0 Hk0) in Hli.
    inversion Hli; subst li. exact HL.
  - intros Hnz.
    destruct (lookup_lt_is_Some_2 segs 1) as [s1 Hs1]; [lia|].
    destruct (wf_segment_last data s1) as (k1 & Hk1 & Hr1).
    { apply (proj1 (Forall_lookup _ _) Hwf _ _ Hs1). }
    destruct (lookup_lt_is_Some_2 g 0) as [g0 Hg0]; [lia|].
    destruct (lookup_lt_is_Some_2 g 1) as [g1 Hg1]; [lia|].
    rewrite (LEP_index_of_later _ _ _ _ _ _ _ _ _ _
               Hnz Hs0 Hk0 Hs1 Hk1 Hg0 Hg1) in Hli.
    cbn [config init] in Hli. inversion Hli; subst li. clear Hli.
    exists g0, g1, s0, s1, k0, k1.
    repeat (split; [assumption|]).
    split; [|split].
    + intros H1. apply Qltb_lt in H1. rewrite H1 in HL.
      rewrite HL. split; [reflexivity | apply in_profile_depth, Hr1].
    + intros H1 H2. apply Qltb_false_not in H1. apply Qltb_lt in H2.
      rewrite H1, H2 in HL. exact HL.
    + intros H1 H2. apply Qltb_false_not in H1, H2.
      rewrite H1, H2 in HL.
      rewrite HL. split; [reflexivity | apply in_profile_depth, Hr0].
Qed.

(** C5. When the maximum gradient exceeds [minTRM_gradient], [detect]
    (on a fresh detector, a profile of two samples or more and well-formed
    segments) returns with [UHY] chosen as follows.  If the max-gradient
    segment is the last one, [UHY] is [None].  Otherwise, if
    [|gradient[-2]| < stable_gradient], [UHY] is the depth at the first
    index of the second-to-last segment; else if
    [|gradient[-1]| > stable_gradient2], [UHY] is [None]; else [UHY] is
    the depth at the first index of the last segment. *)
Theorem UHY_rule data saveModel cfg segs0 segs g i gm :
  bottomUp_fit_predict (max_error cfg) (Temperature data) = Ok segs0 ->
  (2 <= length (Depth data))%nat ->
  noise_guard (init cfg) data segs0 = Ok (segs, g, i) ->
  pymax g = Ok gm ->
  minTRM_gradient cfg < gm ->
  Forall (wf_segment data) segs ->
  exists st,
    detect bottomUp_fit_predict data saveModel (init cfg) = (st, Ok tt) /\
    (S i = length segs -> UHY st = None) /\
    (S i <> length segs ->
     exists gp gl sp sl kp kl,
       g !! (length g - 2)%nat = Some gp /\ last g = Some gl /\
       segs !! (length segs - 2)%nat = Some sp /\ last segs = Some sl /\
       head (point_index sp) = Some kp /\
       head (point_index sl) = Some kl /\
       (Qabs gp < stable_gradient cfg ->
        UHY st = Depth data !! Z.to_nat kp /\ is_Some (UHY st)) /\
       (~ Qabs gp < stable_gradient cfg ->
        stable_gradient2 cfg < Qabs gl -> UHY st = None) /\
       (~ Qabs gp < stable_gradient cfg ->
        ~ stable_gradient2 cfg < Qabs gl ->
        UHY st = Depth data !! Z.to_nat kl /\ is_Some (UHY st))).
Proof.
  intros Hfit Hlen Hguard Hmax Hgate Hwf.
  destruct (detect_open_gate _ data saveModel cfg _ _ _ _ _
              Hfit Hlen Hguard Hmax Hgate Hwf)
    as (st & seg & mid & li & ui & Hdet & Hseg & _ & _ & _ & _ & Hui & _ & _
        & _ & HU).
  destruct (noise_guard_inv _ _ _ _ _ _ Hguard) as [Hg _].
  pose proof (mapR_length _ _ _ Hg) as Hlg.
  pose proof (lookup_lt_Some _ _ _ Hseg) as Hilt.
  destruct (last_is_Some segs) as [sl Hsl]; [lia|].
  assert (Hwl : wf_segment data sl).
  { rewrite last_lookup in Hsl. apply (proj1 (Forall_lookup _ _) Hwf _ _ Hsl). }
  destruct (wf_segment_head data sl Hwl) as (kl & Hkl & Hrl).
  exists st. split; [exact Hdet|]. split.
  - intros Hlast.
    assert (Hlast' : S i = length g) by lia.
    rewrite (UHY_index_of_last _ _ _ _ _ _ Hlast' Hsl Hkl) in Hui.
    inversion Hui; subst ui. exact HU.
  - intros Hnl.
    destruct (lookup_lt_is_Some_2 segs (length segs - 2)) as [sp Hsp]; [lia|].
    destruct (wf_segment_head data sp) as (kp & Hkp & Hrp).
    { apply (proj1 (Forall_lookup _ _) Hwf _ _ Hsp). }
    destruct (lookup_lt_is_Some_2 g (length g - 2)) as [gp Hgp]; [lia|].
    destruct (last_is_Some g) as [gl Hgl]; [lia|].
    assert (Hlt : (S i < length g)%nat) by lia.
    symmetry in Hlg.
    rewrite (UHY_index_of_earlier _ _ _ _ _ _ _ _ _ _
               Hlt Hlg Hsp Hkp Hsl Hkl Hgp Hgl) in Hui.
    cbn [config init] in Hui. inversion Hui; subst ui. clear Hui.
    exists gp, gl, sp, sl, kp, kl.
    repeat (split; [assumption|]).
    split; [|split].
    + intros H1. apply Qltb_lt in H1. rewrite H1 in HU.
      rewrite HU. split; [reflexivity | apply in_profile_depth, Hrp].
    + intros H1 H2. apply Qltb_false_not in H1. apply Qltb_lt in H2.
      rewrite H1, H2 in HU. exact HU.
    + intros H1 H2. apply Qltb_false_not in H1, H2.
      rewrite H1, H2 in HU.
      rewrite HU. split; [reflexivity | apply in_profile_depth, Hrl].
Qed.

End BoundaryTheorems.

Lemma segs_mid_wf : Forall (wf_segment data0) segs_mid.
Proof. unfold segs_mid. wf_segments. Qed.

Lemma TRM_at_truncated_midpoint_witness :
  exists st d,
    detect (fun _ _ => Ok segs_mid) data0 true (init cfg0) = (st, Ok tt) /\
    Depth data0 !! ((3 + 4) / 2)%nat = Some d /\
    TRM st = Some d.
Proof.
  apply (TRM_at_truncated_midpoint (fun _ _ => Ok segs_mid) data0 true cfg0
           segs_mid segs_mid (qs [0; 10; 0]%Z) 1%nat 10
           {| fitted_line := qs [20; 10]%Z; point_index := [3; 4]%Z |}
           3%nat 4%nat).
  - reflexivity.
  - cbn. lia.
  - reflexivity.
  - reflexivity.
  - reflexivity.
  - exact segs_mid_wf.
  - reflexivity.
  - lia.
  - reflexivity.
Defined.

(** C2, the claim as stated, fails.  The max-gradient segment of
    [segs_mid] has the index range [3 .. 4] and gradient 10, above
    [minTRM_gradient = 2]; [round((3+4)/2)] is 4, where the depth is 4,
    but [detect] sets [TRM] to the depth at index [int(3.5) = 3]. *)
Lemma TRM_not_at_rounded_midpoint :
  exists st seg,
    detect (fun _ _ => Ok segs_mid) data0 true (init cfg0) = (st, Ok tt) /\
    noise_guard (init cfg0) data0 segs_mid
      = Ok (segs_mid, qs [0; 10; 0]%Z, 1%nat) /\
    minTRM_gradient cfg0 < 10 /\
    segs_mid !! 1%nat = Some seg /\ point_index seg = [3; 4]%Z /\
    pyround ((3 + 4) / 2) = 4%Z /\
    loc (Depth data0) (pyround ((3 + 4) / 2)) = Ok 4 /\
    TRM st = Some 3 /\
    TRM st <> Some 4.
Proof.
  eexists. eexists.
  split; [vm_compute; reflexivity|].
  split; [reflexivity|].
  split; [reflexivity|].
  split; [reflexivity|].
  split; [reflexivity|].
  split; [reflexivity|].
  split; [reflexivity|].
  split; [reflexivity|].
  discriminate.
Qed.

Lemma LEP_rule_witness :
  exists st,
    detect (fun _ _ => Ok segs_mid) data0 true (init cfg0) = (st, Ok tt) /\
    LEP st = Some 2.
Proof.
  destruct (LEP_rule (fun _ _ => Ok segs_mid) data0 true cfg0
              segs_mid segs_mid (qs [0; 10; 0]%Z) 1%nat 10
              eq_refl ltac:(cbn; lia) eq_refl eq_refl eq_refl segs_mid_wf)
    as (st & Hdet & _ & Hrule).
  exists st. split; [exact Hdet|].
  destruct (Hrule ltac:(discriminate))
    as (g0 & g1 & s0 & s1 & k0 & k1 & Hg0 & Hg1 & Hs0 & Hs1 & Hk0 & Hk1
        & _ & _ & Hdefault).
  inversion Hg0; subst g0. inversion Hg1; subst g1.
  inversion Hs0; subst s0. inversion Hk0; subst k0.
  destruct Hdefault as [HL _]; [discriminate | discriminate |].
  rewrite HL. reflexivity.
Defined.

Lemma UHY_rule_witness :
  exists st,
    detect (fun _ _ => Ok segs_mid) data0 true (init cfg0) = (st, Ok tt) /\
    UHY st = Some 5.
Proof.
  destruct (UHY_rule (fun _ _ => Ok segs_mid) data0 true cfg0
              segs_mid segs_mid (qs [0; 10; 0]%Z) 1%nat 10
              eq_refl ltac:(cbn; lia) eq_refl eq_refl eq_refl segs_mid_wf)
    as (st & Hdet & _ & Hrule).
  exists st. split; [exact Hdet|].
  destruct (Hrule ltac:(discriminate))
    as (gp & gl & sp & sl & kp & kl & Hgp & Hgl & Hsp & Hsl & Hkp & Hkl
        & _ & _ & Hdefault).
  inversion Hgp; subst gp. inversion Hgl; subst gl.
  inversion Hsl; subst sl. inversion Hkl; subst kl.
  destruct Hdefault as [HU _]; [discriminate | discriminate |].
  rewrite HU. reflexivity.
Defined.

(** ** The ensemble *)

(** Lookups in a dictionary built by assignments to literal keys. *)
Ltac map_lookups :=
  repeat first
    [ rewrite lookup_insert_eq
    | rewrite lookup_insert_ne by done ].

Section EnsembleTheorems.

Variable bottomUp_fit_predict : Q -> list Q -> result (list Segment).
Variable extractSignalFeatures : DataFrame -> result SignalFrame.
Variable hmm_fit_predict : SignalFrame -> result (list Z).
Variable threshold_fit_predict : list Q -> result (list Z).




(** *** Failure of one strategy *)

Lemma thermocline_detect_returns cfg models0 data methods saveModel :
  let r := thermocline_detect bottomUp_fit_predict extractSignalFeatures
             hmm_fit_predict threshold_fit_predict
             cfg models0 data methods saveModel in
  snd r = Ok (features (fst r)).
Proof.
  unfold thermocline_detect, mbind, try_except, mret, gets.
  destruct (is_in "segmentation" methods), (is_in "HMM" methods),
    (is_in "threshold" methods); reflexivity.
Qed.

Lemma segmentation_body_detect_raises cfg data saveModel e x :
  snd (detect bottomUp_fit_predict data saveModel (init cfg)) = Raise x ->
  segmentation_body bottomUp_fit_predict cfg data saveModel e = (e, Raise x).
Proof.
  intros H. unfold segmentation_body, construct_and_run.
  unfold mbind at 1. unfold lift at 1.
  destruct (detect bottomUp_fit_predict data saveModel (init cfg)) as [st r].
  cbn [snd] in H. subst r. reflexivity.
Qed.

Lemma HMM_body_cases cfg data e :
  HMM_body extractSignalFeatures hmm_fit_predict cfg data e =
  match HMM_detect extractSignalFeatures hmm_fit_predict data (base_init cfg) with
  | (m, Ok _) =>
      (setitem "UHY_HMM" (of_float (base_UHY m))
         (setitem "LEP_HMM" (of_float (base_LEP m))
            (setitem "TRM_HMM" (of_float (base_TRM m)) e)), Ok tt)
  | (_, Raise x) => (e, Raise x)
  end.
Proof.
  unfold HMM_body, construct_and_run. unfold mbind at 1. unfold lift at 1.
  destruct (HMM_detect _ _ data (base_init cfg)) as [m [[]|x]]; reflexivity.
Qed.

Lemma threshold_body_cases cfg data e :
  threshold_body extractSignalFeatures threshold_fit_predict cfg data e =
  match threshold_detect extractSignalFeatures threshold_fit_predict data
          (base_init cfg) with
  | (m, Ok _) =>
      (setitem "UHY_threshold" (of_float (base_UHY m))
         (setitem "LEP_threshold" (of_float (base_LEP m))
            (setitem "TRM_threshold" (of_float (base_TRM m)) e)), Ok tt)
  | (_, Raise x) => (e, Raise x)
  end.
Proof.
  unfold threshold_body, construct_and_run. unfold mbind at 1. unfold lift at 1.
  destruct (threshold_detect _ _ data (base_init cfg)) as [m [[]|x]];
    reflexivity.
Qed.

End EnsembleTheorems.

Lemma is_in_without_same m methods : is_in m (without m methods) = false.
Proof.
  unfold is_in, without. apply bool_decide_eq_false.
  rewrite list_elem_of_In, List.filter_In. intros [_ H].
  rewrite String.eqb_refl in H. discriminate.
Qed.

Lemma is_in_without_other m m' methods :
  m' <> m -> is_in m' (without m methods) = is_in m' methods.
Proof.
  intros Hne. unfold is_in, without. apply bool_decide_ext.
  rewrite !list_elem_of_In, List.filter_In. split; [tauto|].
  intros H. split; [exact H|].
  destruct (String.eqb_spec m' m); [contradiction | reflexivity].
Qed.

Section Isolation.

Variable bottomUp_fit_predict : Q -> list Q -> result (list Segment).
Variable extractSignalFeatures : DataFrame -> result SignalFrame.
Variable hmm_fit_predict : SignalFrame -> result (list Z).
Variable threshold_fit_predict : list Q -> result (list Z).

Local Abbreviation ensemble := (thermocline_detect bottomUp_fit_predict extractSignalFeatures
                   hmm_fit_predict threshold_fit_predict).
Local Abbreviation seg_body := (segmentation_body bottomUp_fit_predict).
Local Abbreviation hmm_body := (HMM_body extractSignalFeatures hmm_fit_predict).
Local Abbreviation thr_body := (threshold_body extractSignalFeatures threshold_fit_predict).

(** The three [try] blocks, with the tests on [methods] decided. *)
Lemma thermocline_detect_flags cfg models0 data methods saveModel :
  ensemble cfg models0 data methods saveModel =
  let e0 := {| features := initial_features; models := models0 |} in
  let e1 := if is_in "segmentation" methods
            then fst (seg_body cfg data saveModel e0) else e0 in
  let e2 := if is_in "HMM" methods then fst (hmm_body cfg data e1) else e1 in
  let e3 := if is_in "threshold" methods
            then fst (thr_body cfg data e2) else e2 in
  (e3, Ok (features e3)).
Proof.
  unfold thermocline_detect, mbind, try_except, mret, gets.
  destruct (is_in "segmentation" methods), (is_in "HMM" methods),
    (is_in "threshold" methods); reflexivity.
Qed.

(** The body of the first [try] writes no key of the other strategies,
    whether it returns or raises. *)
Lemma segmentation_body_other_keys cfg data saveModel e k :
  k ∈ HMM_keys ++ threshold_keys ->
  features (fst (seg_body cfg data saveModel e)) !! k = features e !! k.
Proof.
  intros Hk. unfold segmentation_body, construct_and_run.
  unfold mbind at 1. unfold lift at 1.
  destruct (detect bottomUp_fit_predict data saveModel (init cfg))
    as [st [[]|x]]; [|reflexivity].
  unfold mbind, modify, lift, mret.
  destruct (getitem (gradient st) 0) as [a|];
    [destruct (getitem (gradient st) (-1)) as [b|];
     [destruct (getitem (gradient st) (-2)) as [c|];
      [destruct saveModel|]|]|];
    cbn [fst features setitem models_setitem];
    unfold HMM_keys, threshold_keys in Hk; cbn [app] in Hk;
    repeat (apply elem_of_cons in Hk as [->|Hk]; [map_lookups; reflexivity|]);
    apply elem_of_nil in Hk; contradiction.
Qed.

Lemma initial_features_None k :
  k ∈ segment_keys ++ HMM_keys ++ threshold_keys ->
  initial_features !! k = Some VNone.
Proof.
  intros Hk. unfold segment_keys, HMM_keys, threshold_keys in Hk.
  cbn [app] in Hk.
  repeat (apply elem_of_cons in Hk as [->|Hk]; [vm_compute; reflexivity|]).
  apply elem_of_nil in Hk. contradiction.
Qed.

(** C8, as the code has it.  [thermocline.detect] always returns the
    features and never raises.  When the [detect] call of one strategy
    raises, the whole result is the one of the same call with that
    strategy left out of [methods], and every initialized key of that
    strategy is still [None].  Whatever the segmentation strategy does
    (also when it fails after its [detect] call has returned), the keys of
    the two other strategies are as if it had not run. *)
Theorem strategy_failure_isolated cfg models0 data methods saveModel :
  snd (ensemble cfg models0 data methods saveModel)
    = Ok (features (fst (ensemble cfg models0 data methods saveModel))) /\
  (forall x,
     snd (detect bottomUp_fit_predict data saveModel (init cfg)) = Raise x ->
     ensemble cfg models0 data methods saveModel
       = ensemble cfg models0 data (without "segmentation" methods) saveModel /\
     forall k, k ∈ segment_keys ->
       features (fst (ensemble cfg models0 data methods saveModel)) !! k
         = Some VNone) /\
  (forall x,
     snd (HMM_detect extractSignalFeatures hmm_fit_predict data (base_init cfg))
       = Raise x ->
     ensemble cfg models0 data methods saveModel
       = ensemble cfg models0 data (without "HMM" methods) saveModel /\
     forall k, k ∈ HMM_keys ->
       features (fst (ensemble cfg models0 data methods saveModel)) !! k
         = Some VNone) /\
  (forall x,
     snd (threshold_detect extractSignalFeatures threshold_fit_predict data
            (base_init cfg)) = Raise x ->
     ensemble cfg models0 data methods saveModel
       = ensemble cfg models0 data (without "threshold" methods) saveModel /\
     forall k, k ∈ threshold_keys ->
       features (fst (ensemble cfg models0 data methods saveModel)) !! k
         = Some VNone) /\
  (forall k, k ∈ HMM_keys ++ threshold_keys ->
     features (fst (ensemble cfg models0 data methods saveModel)) !! k
       = features (fst (ensemble cfg models0 data
                          (without "segmentation" methods) saveModel)) !! k).
Proof.
  split; [apply thermocline_detect_returns|].
  split; [|split; [|split]].
  - (* segmentation *)
    intros x Hx.
    rewrite !thermocline_detect_flags.
    rewrite is_in_without_same, !is_in_without_other by done.
    cbv zeta.
    rewrite (segmentation_body_detect_raises _ _ _ _ _ x Hx). cbn [fst].
    split; [destruct (is_in "segmentation" methods); reflexivity|].
    intros k Hk.
    assert (Hinit : initial_features !! k = Some VNone)
      by (apply initial_features_None, elem_of_app; left; exact Hk).
    rewrite HMM_body_cases, threshold_body_cases.
    unfold segment_keys in Hk. cbn [fst snd].
    repeat (apply elem_of_cons in Hk as [->|Hk];
            [destruct (is_in "segmentation" methods), (is_in "HMM" methods),
               (is_in "threshold" methods);
             repeat destruct_inner; cbn [fst features setitem];
             map_lookups; exact Hinit|]).
    apply elem_of_nil in Hk. contradiction.
  - (* HMM *)
    intros x Hx.
    rewrite !thermocline_detect_flags.
    rewrite is_in_without_same, !is_in_without_other by done.
    cbv zeta.
    set (e1 := if is_in "segmentation" methods then _ else _).
    assert (Hb : hmm_body cfg data e1 = (e1, Raise x)).
    { rewrite HMM_body_cases.
      destruct (HMM_detect _ _ data (base_init cfg)) as [m r].
      cbn [snd] in Hx. subst r. reflexivity. }
    rewrite Hb. cbn [fst].
    split; [destruct (is_in "HMM" methods); reflexivity|].
    intros k Hk.
    assert (Hinit : initial_features !! k = Some VNone).
    { apply initial_features_None, elem_of_app. right.
      apply elem_of_app. left. exact Hk. }
    assert (He1 : features e1 !! k = Some VNone).
    { subst e1. destruct (is_in "segmentation" methods); [|exact Hinit].
      rewrite segmentation_body_other_keys; [exact Hinit|].
      apply elem_of_app. left. exact Hk. }
    rewrite threshold_body_cases. unfold HMM_keys in Hk.
    repeat (apply elem_of_cons in Hk as [->|Hk];
            [destruct (is_in "HMM" methods), (is_in "threshold" methods);
             repeat destruct_inner; cbn [fst features setitem];
             map_lookups; exact He1|]).
    apply elem_of_nil in Hk. contradiction.
  - (* threshold *)
    intros x Hx.
    rewrite !thermocline_detect_flags.
    rewrite is_in_without_same, !is_in_without_other by done.
    cbv zeta.
    set (e1 := if is_in "segmentation" methods then _ else _).
    set (e2 := if is_in "HMM" methods then _ else _).
    assert (Hb : thr_body cfg data e2 = (e2, Raise x)).
    { rewrite threshold_body_cases.
      destruct (threshold_detect _ _ data (base_init cfg)) as [m r].
      cbn [snd] in Hx. subst r. reflexivity. }
    rewrite Hb. cbn [fst].
    split; [destruct (is_in "threshold" methods); reflexivity|].
    intros k Hk.
    assert (Hinit : initial_features !! k = Some VNone).
    { apply initial_features_None, elem_of_app. right.
      apply elem_of_app. right. exact Hk. }
    assert (He1 : features e1 !! k = Some VNone).
    { subst e1. destruct (is_in "segmentation" methods); [|exact Hinit].
      rewrite segmentation_body_other_keys; [exact Hinit|].
      apply elem_of_app. right. exact Hk. }
    assert (He2 : features e2 !! k = Some VNone).
    { subst e2. destruct (is_in "HMM" methods); [|exact He1].
      rewrite HMM_body_cases. unfold threshold_keys in Hk.
      repeat (apply elem_of_cons in Hk as [->|Hk];
              [repeat destruct_inner; cbn [fst features setitem];
               map_lookups; exact He1|]).
      apply elem_of_nil in Hk. contradiction. }
    destruct (is_in "threshold" methods); exact He2.
  - (* the other strategies' keys *)
    intros k Hk.
    rewrite !thermocline_detect_flags.
    rewrite is_in_without_same, !is_in_without_other by done.
    cbv zeta. cbn [fst].
    set (e0 := {| features := initial_features; models := models0 |}).
    assert (He1 : features (if is_in "segmentation" methods
                            then fst (seg_body cfg data saveModel e0)
                            else e0) !! k = features e0 !! k).
    { destruct (is_in "segmentation" methods); [|reflexivity].
      apply segmentation_body_other_keys, Hk. }
    set (e1 := if is_in "segmentation" methods then _ else _) in *.
    rewrite !HMM_body_cases, !threshold_body_cases.
    unfold HMM_keys, threshold_keys in Hk. cbn [app] in Hk.
    repeat (apply elem_of_cons in Hk as [->|Hk];
            [destruct (is_in "HMM" methods), (is_in "threshold" methods);
             repeat destruct_inner; cbn [fst features setitem];
             map_lookups; first [reflexivity | exact He1]|]).
    apply elem_of_nil in Hk. contradiction.
Qed.

End Isolation.


Lemma strategy_failure_isolated_witness :
  features
    (fst (thermocline_detect (fun _ _ => Ok segs_mid)
            (fun _ => Raise EngineError) hmm_fixed threshold_fixed
            cfg0 ∅ data0 all_methods true)) !! "TRM_HMM"%string
  = Some VNone.
Proof.
  destruct (strategy_failure_isolated (fun _ _ => Ok segs_mid)
              (fun _ => Raise EngineError) hmm_fixed threshold_fixed
              cfg0 ∅ data0 all_methods true)
    as (_ & _ & Hhmm & _).
  destruct (Hhmm EngineError eq_refl) as [_ Hkeys].
  apply Hkeys. unfold HMM_keys. apply elem_of_cons. left. reflexivity.
Defined.

(** C8, the claim as stated, fails.  On a one-segment fit the
    segmentation [try] raises [IndexError] at [model.gradient[-2]], after
    [detect] has returned: the ensemble still returns, but the keys
    written before the exception keep their values, so [TRM_segment],
    [TRM_gradient_segment] and [TRM_num_segment] are not [None]. *)
Lemma failed_segmentation_keeps_written_keys :
  let e0 := {| features := initial_features; models := ∅ |} in
  let r := thermocline_detect (fun _ _ => Ok segs_single) signal_of
             hmm_fixed threshold_fixed cfg0 ∅ data0 all_methods true in
  snd (segmentation_body (fun _ _ => Ok segs_single) cfg0 data0 true e0)
    = Raise IndexError /\
  snd r = Ok (features (fst r)) /\
  features (fst r) !! "TRM_segment"%string = Some (VFloat 5) /\
  features (fst r) !! "TRM_gradient_segment"%string = Some (VFloat 3) /\
  features (fst r) !! "TRM_num_segment"%string = Some (VInt 1) /\
  features (fst r) !! "TRM_segment"%string <> Some VNone.
Proof.
  cbv zeta.
  split; [vm_compute; reflexivity|].
  split; [apply thermocline_detect_returns|].
  split; [vm_compute; reflexivity|].
  split; [vm_compute; reflexivity|].
  split; [vm_compute; reflexivity|].
  vm_compute. discriminate.
Qed.

(** * Further properties of the segmentation detector *)

(** ** The maximum gradient *)

Lemma fold_max_ge (l : list Q) : forall b,
  b <= fold_left (fun b y => if Qltb b y then y else b) l b /\
  forall y, In y l -> y <= fold_left (fun b y => if Qltb b y then y else b) l b.
Proof.
  induction l as [|x l IH]; intros b; cbn [fold_left].
  - split; [apply Qle_refl | intros y []].
  - destruct (Qltb b x) eqn:E.
    + apply Qltb_lt in E. destruct (IH x) as [H1 H2]. split.
      * apply Qle_trans with x; [apply Qlt_le_weak, E | exact H1].
      * intros y [->|Hy]; [exact H1 | apply H2, Hy].
    + apply Qltb_ge in E. destruct (IH b) as [H1 H2]. split; [exact H1|].
      intros y [->|Hy]; [apply Qle_trans with b; assumption | apply H2, Hy].
Qed.

(** [max(l)] is an upper bound of [l]. *)
Lemma pymax_upper (l : list Q) (m : Q) :
  pymax l = Ok m -> forall y, In y l -> y <= m.
Proof.
  destruct l as [|x l]; [discriminate|]. cbn [pymax]. intros H.
  inversion H; subst m. destruct (fold_max_ge l x) as [H1 H2].
  intros y [->|Hy]; [exact H1 | apply H2, Hy].
Qed.

Lemma argmax_from_first (full : list Q) : forall l best bi k,
  full !! bi = Some best -> (bi < k)%nat ->
  (forall j, (j < length l)%nat -> full !! (k + j)%nat = l !! j) ->
  (forall j y, (j < bi)%nat -> full !! j = Some y -> y < best) ->
  (forall j y, (bi <= j < k)%nat -> full !! j = Some y -> y <= best) ->
  forall j y, (j < argmax_from best bi k l)%nat -> full !! j = Some y ->
    y < fold_left (fun b y => if Qltb b y then y else b) l best.
Proof.
  induction l as [|x l IH]; intros best bi k Hb Hlt Hl Hbefore Hafter.
  - cbn. exact Hbefore.
  - cbn [argmax_from fold_left].
    assert (Hx : full !! k = Some x).
    { specialize (Hl 0%nat). rewrite Nat.add_0_r in Hl. apply Hl. cbn. lia. }
    assert (Hl' : forall j, (j < length l)%nat ->
                            full !! (S k + j)%nat = l !! j).
    { intros j Hj. specialize (Hl (S j)).
      replace (S k + j)%nat with (k + S j)%nat by lia. apply Hl. cbn. lia. }
    destruct (Qltb best x) eqn:E.
    + apply Qltb_lt in E. apply (IH x k (S k)); try assumption; [lia| |].
      * intros j y Hj Hy. destruct (Nat.lt_ge_cases j bi) as [Hjb|Hjb].
        -- apply Qlt_trans with best; [apply (Hbefore j y); assumption | exact E].
        -- apply Qle_lt_trans with best; [|exact E].
           apply (Hafter j y); [lia | exact Hy].
      * intros j y Hj Hy. assert (j = k) by lia. subst j.
        rewrite Hx in Hy. inversion Hy; subst. apply Qle_refl.
    + apply Qltb_ge in E. apply (IH best bi (S k)); try assumption; [lia|].
      intros j y Hj Hy. destruct (Nat.eq_dec j k) as [->|Hne].
      * rewrite Hx in Hy. inversion Hy; subst. exact E.
      * apply (Hafter j y); [lia | exact Hy].
Qed.

(** Every item before [np.argmax(l)] is strictly below the maximum. *)
Lemma np_argmax_first (l : list Q) (i : nat) (m : Q) :
  np_argmax l = Ok i -> pymax l = Ok m ->
  forall j y, (j < i)%nat -> l !! j = Some y -> y < m.
Proof.
  destruct l as [|x l]; [discriminate|]. cbn [np_argmax pymax].
  intros Hi Hm. inversion Hi; subst i. inversion Hm; subst m.
  apply (argmax_from_first (x :: l) l x 0 1).
  - reflexivity.
  - lia.
  - intros j _. reflexivity.
  - intros j y Hj. lia.
  - intros j y Hj Hy. assert (j = 0%nat) by lia. subst j.
    cbn in Hy. inversion Hy; subst. apply Qle_refl.
Qed.

Section DetectInversion.

Variable bottomUp_fit_predict : Q -> list Q -> result (list Segment).

(** Everything [detect] has done when it returns. *)
Lemma detect_returns_inv data saveModel self st :
  detect bottomUp_fit_predict data saveModel self = (st, Ok tt) ->
  exists segs0 segs g i gm s2,
    bottomUp_fit_predict (max_error (config self)) (Temperature data) = Ok segs0 /\
    (2 <= length (Depth data))%nat /\
    noise_guard self data segs0 = Ok (segs, g, i) /\
    g !! i = Some gm /\ pymax g = Ok gm /\
    st = finalize saveModel segs g i gm s2 /\
    config s2 = config self /\ doubleTRM s2 = doubleTRM self /\
    gradient s2 = g /\
    ((gm <= minTRM_gradient (config self) /\ s2 = set_gradient g self) \/
     (minTRM_gradient (config self) < gm /\
      detect_boundaries data segs g i (set_gradient g self) = (s2, Ok tt))).
Proof.
  unfold detect, mbind, gets, lift, id. intros H.
  destruct (bottomUp_fit_predict _ _) as [segs0|]; [|discriminate].
  destruct (loc (Depth data) 1) as [d1|] eqn:Hd1; [|discriminate].
  cbn [rbind] in H.
  destruct (loc (Depth data) 0) as [d0|]; [|discriminate]. cbn [rbind] in H.
  destruct (noise_guard self data segs0) as [[[segs g] i]|] eqn:Hguard;
    [|discriminate].
  cbn [fst snd] in H.
  assert (Hlen : (2 <= length (Depth data))%nat).
  { unfold loc in Hd1.
    destruct (Z.ltb_spec 1 (Z.of_nat (length (Depth data)))); [lia|].
    cbn in Hd1. discriminate. }
  destruct (noise_guard_inv _ _ _ _ _ _ Hguard) as [Hg Hi].
  destruct (argmax_pymax _ _ Hi) as (gm & Hgm & Hmax).
  rewrite (detect_finish_cases _ _ _ _ _ _ _ Hg Hgm Hmax) in H.
  cbv zeta in H.
  exists segs0, segs, g, i, gm.
  destruct (Qltb (minTRM_gradient (config self)) gm) eqn:Egate.
  - pose proof (detect_boundaries_frame data segs g i (set_gradient g self))
      as (Hc & _ & Hdb & _ & Hgr).
    destruct (detect_boundaries data segs g i (set_gradient g self))
      as [s2 [[]|e]]; cbn [fst snd] in *; [|discriminate].
    exists s2. inversion H. apply Qltb_lt in Egate. auto 12.
  - cbn [fst snd] in H. exists (set_gradient g self).
    inversion H. apply Qltb_ge in Egate. auto 12.
Qed.

(** [detect] raises what the lines before line 141 raise, and leaves the
    detector as it was. *)
Lemma detect_guard_raises data saveModel self segs0 e :
  bottomUp_fit_predict (max_error (config self)) (Temperature data) = Ok segs0 ->
  (2 <= length (Depth data))%nat ->
  noise_guard self data segs0 = Raise e ->
  detect bottomUp_fit_predict data saveModel self = (self, Raise e).
Proof.
  intros Hfit Hlen Hguard.
  destruct (loc_in_range (Depth data) 1) as (d1 & _ & Hd1); [lia|].
  destruct (loc_in_range (Depth data) 0) as (d0 & _ & Hd0); [lia|].
  unfold detect, mbind, gets, lift, id.
  rewrite Hfit, Hd1, Hd0. cbn [rbind]. rewrite Hguard. reflexivity.
Qed.

End DetectInversion.
